(** * HyperLocal Events front end (frontend/src/App.js)

    A shallow embedding of the [App] component: its state hooks, the
    handlers [requestLocation], [fetchEvents], [handleSendMessage],
    [handleAddEvent], [addPreference] and [removePreference], and the
    platform functions they call ([String.prototype.trim], [parseFloat],
    [JSON.stringify], [fetch]).  Handlers are programs over the events
    they raise (state setters, clock reads, network calls, console
    output); an interpreter runs them against an environment that
    answers the clock and the network. *)

From Stdlib Require Import List ZArith NArith Bool Lia String Ascii Floats.
From ExtLib Require Import Structures.Monad Structures.MonadExc.
Import ListNotations.
Import MonadNotation.
Local Open Scope monad_scope.

#[local] Set Warnings "-inexact-float,-register-all".

Set Implicit Arguments.

(** ** JavaScript strings *)

Module JsString.

(** A JavaScript string is a sequence of UTF-16 code units. *)
Definition t := list N.

Definition eq_dec : forall a b : t, {a = b} + {a <> b} := list_eq_dec N.eq_dec.

Definition eqb (a b : t) : bool := if eq_dec a b then true else false.

(** Source literals are ASCII; each character is its own code unit. *)
Definition lit (s : string) : t := map N_of_ascii (list_ascii_of_string s).

(** WhiteSpace and LineTerminator code points of ECMAScript, the set
    that [trim] and [parseFloat] strip. *)
Definition is_space (c : N) : bool :=
  ((9 <=? c) && (c <=? 13) || (c =? 32) || (c =? 160) || (c =? 5760)
   || (8192 <=? c) && (c <=? 8202) || (c =? 8232) || (c =? 8233)
   || (c =? 8239) || (c =? 8287) || (c =? 12288) || (c =? 65279))%N.

Fixpoint trimStart (s : t) : t :=
  match s with
  | c :: s' => if is_space c then trimStart s' else s
  | [] => []
  end.

Definition trimEnd (s : t) : t := rev (trimStart (rev s)).

(** [s.trim()] *)
Definition trim (s : t) : t := trimEnd (trimStart s).

(** ToBoolean on a string: only the empty string is falsy. *)
Definition truthy (s : t) : bool :=
  match s with [] => false | _ :: _ => true end.

End JsString.

Definition jsstring : Type := JsString.t.
Notation "'js' s" := (JsString.lit s%string) (at level 9, s at level 0, only parsing).

(** ** JavaScript numbers

    Number values are IEEE 754 binary64, the kernel's primitive floats. *)

Module JsNumber.

Definition t := float.

Definition NaN : t := nan.

Definition isNaN (x : t) : bool := PrimFloat.is_nan x.

(** Finite: neither NaN nor an infinity. *)
Definition isFinite (x : t) : bool :=
  negb (PrimFloat.is_nan x) && negb (PrimFloat.is_infinity x).

(** ToBoolean on a number: +0, -0 and NaN are falsy. *)
Definition truthy (x : t) : bool :=
  negb (PrimFloat.is_nan x) && negb (PrimFloat.is_zero x).

(** The binary64 nearest (ties to even) to [m * 10^e], with sign [neg]:
    the Number value of a decimal literal. *)
Definition of_decimal (neg : bool) (m : N) (e : Z) : t :=
  match m with
  | N0 => if neg then neg_zero else zero
  | Npos p =>
      SF2Prim
        (match e with
         | Zneg k =>
             SFdiv prec emax (S754_finite neg p 0)
                   (S754_finite false (Pos.pow 10 k) 0)
         | _ => binary_round prec emax neg (p * Z.to_pos (10 ^ e)) 0
         end)
  end.

(** *** [parseFloat]

    The longest prefix of the input, after leading white space, that is
    a StrDecimalLiteral:
    [[+-]? (Infinity | digits [. digits?] [exp]? | . digits [exp]?)]
    with [exp = [eE] [+-]? digits]. *)

Definition digit_val (c : N) : option N :=
  if ((48 <=? c) && (c <=? 57))%N then Some (c - 48)%N else None.

(** Reads a maximal run of decimal digits: the accumulated value, the
    number of digits read, and the rest of the input. *)
Fixpoint digits (s : jsstring) (acc : N) (n : nat) : N * nat * jsstring :=
  match s with
  | c :: s' =>
      match digit_val c with
      | Some d => digits s' (10 * acc + d)%N (S n)
      | None => (acc, n, s)
      end
  | [] => (acc, n, [])
  end.

(** ExponentPart, when one is present at the head of [s]; 0 otherwise. *)
Definition exponent (s : jsstring) : Z :=
  match s with
  | 101%N :: s' | 69%N :: s' =>
      let '(neg, s'') :=
        match s' with
        | 43%N :: r => (false, r)
        | 45%N :: r => (true, r)
        | _ => (false, s')
        end in
      let '(v, n, _) := digits s'' 0%N 0%nat in
      match n with
      | O => 0%Z
      | S _ => if neg then (- Z.of_N v)%Z else Z.of_N v
      end
  | _ => 0%Z
  end.

Definition is_prefix (p s : jsstring) : bool :=
  JsString.eqb (firstn (List.length p) s) p.

Definition unsigned_literal (neg : bool) (s : jsstring) : t :=
  if is_prefix (js "Infinity") s then (if neg then neg_infinity else infinity)
  else
    let '(ip, ni, r) := digits s 0%N 0%nat in
    match r with
    | 46%N :: r' =>
        let '(m, nf, r'') := digits r' ip 0%nat in
        match ni, nf with
        | O, O => NaN
        | _, _ => of_decimal neg m (exponent r'' - Z.of_nat nf)
        end
    | _ =>
        match ni with
        | O => NaN
        | S _ => of_decimal neg ip (exponent r)
        end
    end.

Definition parseFloat (s : jsstring) : t :=
  match JsString.trimStart s with
  | 43%N :: r => unsigned_literal false r
  | 45%N :: r => unsigned_literal true r
  | r => unsigned_literal false r
  end.

End JsNumber.

Definition number : Type := JsNumber.t.

(** ** Values and JSON *)

(** The plain-data values the component handles: what [response.json()]
    yields, and the object literals it serialises.  An object is its own
    properties in insertion order. *)
Inductive value : Type :=
| VUndefined
| VNull
| VBool (b : bool)
| VNum (x : number)
| VStr (s : jsstring)
| VArr (xs : list value)
| VObj (props : list (jsstring * value)).

(** The syntax tree of a JSON text. *)
Inductive json : Type :=
| JNull
| JBool (b : bool)
| JNum (x : number)
| JStr (s : jsstring)
| JArr (xs : list json)
| JObj (members : list (jsstring * json)).

(** What the component throws, catches and logs. *)
Inductive JsError : Type :=
| Error (message : jsstring)               (* new Error(message) *)
| NullishRead (base : value) (key : jsstring) (* TypeError: property read on null or undefined *)
| PlatformError (name message : jsstring)  (* a rejection raised by fetch or response.json() *)
| PositionError (code : N).                (* GeolocationPositionError *)

Module JsValue.

Fixpoint lookup (props : list (jsstring * value)) (k : jsstring) : option value :=
  match props with
  | (k', v) :: rest => if JsString.eqb k' k then Some v else lookup rest k
  | [] => None
  end.

(** ToBoolean *)
Definition truthy (v : value) : bool :=
  match v with
  | VUndefined | VNull => false
  | VBool b => b
  | VNum x => JsNumber.truthy x
  | VStr s => JsString.truthy s
  | VArr _ | VObj _ => true
  end.

(** [a || b] *)
Definition or (a b : value) : value := if truthy a then a else b.

(** [v.k] for a key [k] that no built-in prototype defines (the
    component reads [response] and [recommended_events]): a TypeError on
    null and undefined, the own property of an object, [undefined] on
    anything else. *)
Definition get (v : value) (k : jsstring) : JsError + value :=
  match v with
  | VUndefined | VNull => inl (NullishRead v k)
  | VObj props =>
      inr (match lookup props k with Some x => x | None => VUndefined end)
  | _ => inr VUndefined
  end.

(** [{...o, k: v}]: an existing key keeps its place, a new one goes last. *)
Fixpoint set (props : list (jsstring * value)) (k : jsstring) (v : value)
  : list (jsstring * value) :=
  match props with
  | (k', v') :: rest =>
      if JsString.eqb k' k then (k', v) :: rest else (k', v') :: set rest k v
  | [] => [(k, v)]
  end.

End JsValue.

Module JSON.

(** A number in a JSON text: non-finite numbers are written [null], and
    -0 is written [0]. *)
Definition of_number (x : number) : json :=
  if JsNumber.isFinite x
  then JNum (if PrimFloat.is_zero x then zero else x)
  else JNull.

(** [JSON.stringify(v)], as the tree of the text it returns; [None] is
    [undefined].  A property whose value is [undefined] is left out; an
    [undefined] array element is written [null]. *)
Fixpoint stringify (v : value) : option json :=
  match v with
  | VUndefined => None
  | VNull => Some JNull
  | VBool b => Some (JBool b)
  | VNum x => Some (of_number x)
  | VStr s => Some (JStr s)
  | VArr xs =>
      Some (JArr (map (fun x => match stringify x with
                                | Some j => j
                                | None => JNull
                                end) xs))
  | VObj props =>
      Some (JObj ((fix members (ps : list (jsstring * value)) :=
                     match ps with
                     | (k, x) :: rest =>
                         match stringify x with
                         | Some j => (k, j) :: members rest
                         | None => members rest
                         end
                     | [] => []
                     end) props))
  end.

(** The member named [k] of a JSON object. *)
Fixpoint member (ms : list (jsstring * json)) (k : jsstring) : option json :=
  match ms with
  | (k', j) :: rest => if JsString.eqb k' k then Some j else member rest k
  | [] => None
  end.

Definition field (j : json) (k : jsstring) : option json :=
  match j with
  | JObj ms => member ms k
  | _ => None
  end.

End JSON.

(** ** The network *)

Inductive Method : Type := GET | POST.

Record Request : Type := mkRequest {
  url : jsstring;
  method : Method;
  headers : list (jsstring * jsstring);
  body : option json
}.

(** A response: its status line and what [response.json()] settles to. *)
Record Response : Type := mkResponse {
  status : Z;
  json_body : JsError + value
}.

(** [response.ok]: the status is in the range 200-299. *)
Definition ok (r : Response) : bool :=
  ((200 <=? status r) && (status r <=? 299))%Z.

Inductive FetchOutcome : Type :=
| Resolved (r : Response)
| Rejected (reason : JsError).

(** ** Geolocation *)

Record Location : Type := mkLocation {
  latitude : number;
  longitude : number
}.

Inductive PositionOutcome : Type :=
| PositionSuccess (coords : Location)
| PositionFailure (error : JsError).

(** ** Component state *)

Inductive MessageType : Type := user | bot.

(** [id] is [Date.now()] or [Date.now() + 1]: an integer number of
    milliseconds, on which the addition is exact. *)
Record ChatMessage : Type := mkChatMessage {
  id : Z;
  type : MessageType;
  content : value;
  timestamp : jsstring
}.

Record EventForm : Type := mkEventForm {
  title : jsstring;
  description : jsstring;
  category : jsstring;
  date : jsstring;
  time : jsstring;
  location : jsstring;
  address : jsstring;
  form_latitude : jsstring;
  form_longitude : jsstring;
  organizer : jsstring;
  price : jsstring;
  image_url : jsstring
}.

(** The form as the object it is, properties in the order of the
    [useState] initialiser. *)
Definition form_object (f : EventForm) : list (jsstring * value) :=
  [ (js "title", VStr (title f));
    (js "description", VStr (description f));
    (js "category", VStr (category f));
    (js "date", VStr (date f));
    (js "time", VStr (time f));
    (js "location", VStr (location f));
    (js "address", VStr (address f));
    (js "latitude", VStr (form_latitude f));
    (js "longitude", VStr (form_longitude f));
    (js "organizer", VStr (organizer f));
    (js "price", VStr (price f));
    (js "image_url", VStr (image_url f)) ].

Definition empty_form : EventForm :=
  mkEventForm [] [] [] [] [] [] [] [] [] [] (js "Free") [].

(** The [useState] hooks of [App]. *)
Record AppState : Type := mkAppState {
  messages : list ChatMessage;
  inputMessage : jsstring;
  userLocation : option Location;
  events : value;
  recommendedEvents : value;
  isLoading : bool;
  activeTab : jsstring;
  preferences : list jsstring;
  showAddEvent : bool;
  newEvent : EventForm
}.

Definition initial_state : AppState :=
  {| messages := [];
     inputMessage := [];
     userLocation := None;
     events := VArr [];
     recommendedEvents := VArr [];
     isLoading := false;
     activeTab := js "chat";
     preferences := [];
     showAddEvent := false;
     newEvent := empty_form |}.

(** ** Handler programs *)

(** State setters, and the console. [SetMessages] takes the updater
    function; the other setters are only ever called with a value. *)
Inductive Effect : Type :=
| SetMessages (f : list ChatMessage -> list ChatMessage)
| SetInputMessage (v : jsstring)
| SetUserLocation (v : option Location)
| SetEvents (v : value)
| SetRecommendedEvents (v : value)
| SetIsLoading (v : bool)
| SetActiveTab (v : jsstring)
| SetPreferences (v : list jsstring)
| SetShowAddEvent (v : bool)
| SetNewEvent (v : EventForm)
| ConsoleError (label : jsstring) (e : JsError).

(** What a handler asks of the platform.  All answer at once but
    [Fetch], which is awaited and may never settle.
    [GetCurrentPosition] hands the two callbacks to the browser and
    returns; the browser calls one of them later, or never. *)
Inductive Query : Type -> Type :=
| DateNow : Query Z                        (* Date.now() *)
| ToLocaleTimeString : Query jsstring      (* new Date().toLocaleTimeString() *)
| HasGeolocation : Query bool              (* navigator.geolocation is truthy *)
| Fetch (r : Request) : Query FetchOutcome (* await fetch(url, init) *)
| GetCurrentPosition : Query unit.         (* navigator.geolocation.getCurrentPosition(success, error) *)

(** A handler: the tree of what it does, branching on the answers. *)
Inductive Prog (A : Type) : Type :=
| Ret (a : A)
| Throw (e : JsError)
| Do (u : Effect) (k : Prog A)
| Ask (X : Type) (q : Query X) (k : X -> Prog A).

Arguments Throw {A} e.
Arguments Ask {A X} q k.

Fixpoint bind_prog (A B : Type) (p : Prog A) (f : A -> Prog B) : Prog B :=
  match p with
  | Ret a => f a
  | Throw e => Throw e
  | Do u k => Do u (bind_prog k f)
  | Ask q k => Ask q (fun x => bind_prog (k x) f)
  end.

(** [try { p } catch (error) { h error }] *)
Fixpoint try_catch (A : Type) (p : Prog A) (h : JsError -> Prog A) : Prog A :=
  match p with
  | Ret a => Ret a
  | Throw e => h e
  | Do u k => Do u (try_catch k h)
  | Ask q k => Ask q (fun x => try_catch (k x) h)
  end.

(** [try { p } finally { f }] *)
Fixpoint try_finally (A : Type) (p : Prog A) (f : Prog unit) : Prog A :=
  match p with
  | Ret a => bind_prog f (fun _ => Ret a)
  | Throw e => bind_prog f (fun _ => Throw e)
  | Do u k => Do u (try_finally k f)
  | Ask q k => Ask q (fun x => try_finally (k x) f)
  end.

#[export] Instance Monad_Prog : Monad Prog :=
  {| ret := Ret; bind := bind_prog |}.

#[export] Instance Exception_Prog : MonadExc JsError Prog :=
  {| raise := @Throw; catch := try_catch |}.

Definition perform (u : Effect) : Prog unit := Do u (Ret tt).
Definition ask (X : Type) (q : Query X) : Prog X := Ask q (@Ret X).

(** Awaiting a promise: a rejection is thrown at the [await]. *)
Definition await_fetch (r : Request) : Prog Response :=
  o <- ask (Fetch r) ;;
  match o with
  | Resolved resp => ret resp
  | Rejected reason => raise reason
  end.

Definition await_json (r : Response) : Prog value :=
  match json_body r with
  | inr data => ret data
  | inl e => raise e
  end.

Definition read (v : value) (k : jsstring) : Prog value :=
  match JsValue.get v k with
  | inr x => ret x
  | inl e => raise e
  end.

(** ** Running a handler *)

(** The platform: the answer to the n-th clock read, the fate of the
    n-th request ([None]: it never settles), and the callback the
    browser makes for the n-th position request ([None]: neither callback
    is ever called). *)
Record Env : Type := mkEnv {
  now : nat -> Z;
  localeTime : nat -> jsstring;
  geolocation : bool;
  network : nat -> option FetchOutcome;
  position : nat -> option PositionOutcome
}.

(** The component state together with what has left the component. *)
Record World : Type := mkWorld {
  ui : AppState;
  requests : list Request;               (* in the order issued *)
  console : list (jsstring * JsError);
  clock_reads : nat;
  position_requests : nat
}.

Definition with_ui (f : AppState -> AppState) (w : World) : World :=
  mkWorld (f (ui w)) (requests w) (console w) (clock_reads w) (position_requests w).

Definition apply_effect (u : Effect) (w : World) : World :=
  match u with
  | SetMessages f =>
      with_ui (fun s => mkAppState (f (messages s)) (inputMessage s) (userLocation s)
        (events s) (recommendedEvents s) (isLoading s) (activeTab s) (preferences s)
        (showAddEvent s) (newEvent s)) w
  | SetInputMessage v =>
      with_ui (fun s => mkAppState (messages s) v (userLocation s)
        (events s) (recommendedEvents s) (isLoading s) (activeTab s) (preferences s)
        (showAddEvent s) (newEvent s)) w
  | SetUserLocation v =>
      with_ui (fun s => mkAppState (messages s) (inputMessage s) v
        (events s) (recommendedEvents s) (isLoading s) (activeTab s) (preferences s)
        (showAddEvent s) (newEvent s)) w
  | SetEvents v =>
      with_ui (fun s => mkAppState (messages s) (inputMessage s) (userLocation s)
        v (recommendedEvents s) (isLoading s) (activeTab s) (preferences s)
        (showAddEvent s) (newEvent s)) w
  | SetRecommendedEvents v =>
      with_ui (fun s => mkAppState (messages s) (inputMessage s) (userLocation s)
        (events s) v (isLoading s) (activeTab s) (preferences s)
        (showAddEvent s) (newEvent s)) w
  | SetIsLoading v =>
      with_ui (fun s => mkAppState (messages s) (inputMessage s) (userLocation s)
        (events s) (recommendedEvents s) v (activeTab s) (preferences s)
        (showAddEvent s) (newEvent s)) w
  | SetActiveTab v =>
      with_ui (fun s => mkAppState (messages s) (inputMessage s) (userLocation s)
        (events s) (recommendedEvents s) (isLoading s) v (preferences s)
        (showAddEvent s) (newEvent s)) w
  | SetPreferences v =>
      with_ui (fun s => mkAppState (messages s) (inputMessage s) (userLocation s)
        (events s) (recommendedEvents s) (isLoading s) (activeTab s) v
        (showAddEvent s) (newEvent s)) w
  | SetShowAddEvent v =>
      with_ui (fun s => mkAppState (messages s) (inputMessage s) (userLocation s)
        (events s) (recommendedEvents s) (isLoading s) (activeTab s) (preferences s)
        v (newEvent s)) w
  | SetNewEvent v =>
      with_ui (fun s => mkAppState (messages s) (inputMessage s) (userLocation s)
        (events s) (recommendedEvents s) (isLoading s) (activeTab s) (preferences s)
        (showAddEvent s) v) w
  | ConsoleError label e =>
      mkWorld (ui w) (requests w) (console w ++ [(label, e)]) (clock_reads w)
        (position_requests w)
  end.

(** The world once the query is out, and the platform's answer. *)
Definition answer (env : Env) (X : Type) (q : Query X) (w : World) : World * option X :=
  match q in Query X return World * option X with
  | DateNow =>
      (mkWorld (ui w) (requests w) (console w) (S (clock_reads w)) (position_requests w),
       Some (now env (clock_reads w)))
  | ToLocaleTimeString =>
      (mkWorld (ui w) (requests w) (console w) (S (clock_reads w)) (position_requests w),
       Some (localeTime env (clock_reads w)))
  | HasGeolocation => (w, Some (geolocation env))
  | Fetch r =>
      (mkWorld (ui w) (requests w ++ [r]) (console w) (clock_reads w) (position_requests w),
       network env (List.length (requests w)))
  | GetCurrentPosition =>
      (mkWorld (ui w) (requests w) (console w) (clock_reads w) (S (position_requests w)),
       Some tt)
  end.

Inductive Completion (A : Type) : Type :=
| Returned (a : A)
| Uncaught (e : JsError)
| Pending.          (* suspended on something that never settles *)

Arguments Uncaught {A} e.
Arguments Pending {A}.

Fixpoint run (A : Type) (env : Env) (p : Prog A) (w : World) : World * Completion A :=
  match p with
  | Ret a => (w, Returned a)
  | Throw e => (w, Uncaught e)
  | Do u k => run env k (apply_effect u w)
  | Ask q k =>
      match answer env q w with
      | (w', Some x) => run env (k x) w'
      | (w', None) => (w', Pending)
      end
  end.

(** A handler is a closure over the values of the render it was created
    in; the user triggers the one of the current render. *)
Definition invoke (A : Type) (h : AppState -> Prog A) (env : Env) (w : World)
  : World * Completion A :=
  run env (h (ui w)) w.

(** ** The component *)

(** The demo location used when the browser gives none. *)
Definition default_location : Location := mkLocation 40.7589%float (-73.9851)%float.

Definition apology : jsstring :=
  js "I'm sorry, I'm having trouble connecting right now. Please try again in a moment.".

Definition greeting : jsstring :=
  js "Hi! I'm your hyperlocal events assistant. I can help you discover amazing local events based on your location and interests. What kind of events are you looking for?".

Definition json_headers : list (jsstring * jsstring) :=
  [(js "Content-Type", js "application/json")].

(** [preferences.includes(category)] *)
Definition includes (l : list jsstring) (x : jsstring) : bool :=
  existsb (fun p => JsString.eqb p x) l.

Section App.

(** [process.env.REACT_APP_BACKEND_URL], as the template literals
    interpolate it. *)
Variable BACKEND_URL : jsstring.

(** The two callbacks [requestLocation] passes to
    [getCurrentPosition]: the success callback and the error callback. *)
Definition position_callback (outcome : PositionOutcome) : Prog unit :=
  match outcome with
  | PositionSuccess coords =>
      perform (SetUserLocation
                 (Some (mkLocation (latitude coords) (longitude coords))))
  | PositionFailure error =>
      perform (ConsoleError (js "Location error:") error) ;;
      perform (SetUserLocation (Some default_location))
  end.

(** The call itself is synchronous: with geolocation it registers the
    callbacks and returns. *)
Definition requestLocation : Prog unit :=
  available <- ask HasGeolocation ;;
  if available : bool then
    ask GetCurrentPosition
  else
    perform (SetUserLocation (Some default_location)).

(** [requestLocation()] followed, when the call made a position request
    and the browser answers it, by the callback the browser makes. *)
Definition locate (env : Env) (w : World) : World :=
  let w' := fst (run env requestLocation w) in
  if (position_requests w <? position_requests w')%nat then
    match position env (position_requests w) with
    | Some outcome => fst (run env (position_callback outcome) w')
    | None => w'
    end
  else w'.

Definition events_request : Request :=
  mkRequest (BACKEND_URL ++ js "/api/events") GET [] None.

Definition fetchEvents : Prog unit :=
  catch
    (response <- await_fetch events_request ;;
     data <- await_json response ;;
     perform (SetEvents data))
    (fun error => perform (ConsoleError (js "Error fetching events:") error)).

(** The body of the chat request: [userLocation?.latitude] is
    [undefined] while the location is null. *)
Definition chat_payload (r : AppState) : value :=
  VObj [ (js "message", VStr (inputMessage r));
         (js "latitude",
           match userLocation r with
           | Some l => VNum (latitude l)
           | None => VUndefined
           end);
         (js "longitude",
           match userLocation r with
           | Some l => VNum (longitude l)
           | None => VUndefined
           end);
         (js "preferences", VArr (map VStr (preferences r))) ].

Definition chat_request (r : AppState) : Request :=
  mkRequest (BACKEND_URL ++ js "/api/chat") POST json_headers
            (JSON.stringify (chat_payload r)).

Definition handleSendMessage (r : AppState) : Prog unit :=
  if negb (JsString.truthy (JsString.trim (inputMessage r))) then ret tt
  else
    t0 <- ask DateNow ;;
    ts0 <- ask ToLocaleTimeString ;;
    let userMessage := mkChatMessage t0 user (VStr (inputMessage r)) ts0 in
    perform (SetMessages (fun prev => prev ++ [userMessage])) ;;
    perform (SetInputMessage []) ;;
    perform (SetIsLoading true) ;;
    try_finally
      (catch
         (response <- await_fetch (chat_request r) ;;
          (if negb (ok response)
           then raise (Error (js "Failed to get response"))
           else ret tt) ;;
          data <- await_json response ;;
          t1 <- ask DateNow ;;
          reply <- read data (js "response") ;;
          ts1 <- ask ToLocaleTimeString ;;
          let botMessage := mkChatMessage (t1 + 1) bot reply ts1 in
          perform (SetMessages (fun prev => prev ++ [botMessage])) ;;
          recommended <- read data (js "recommended_events") ;;
          perform (SetRecommendedEvents (JsValue.or recommended (VArr []))))
         (fun error =>
            perform (ConsoleError (js "Error sending message:") error) ;;
            t1 <- ask DateNow ;;
            ts1 <- ask ToLocaleTimeString ;;
            let errorMessage := mkChatMessage (t1 + 1) bot (VStr apology) ts1 in
            perform (SetMessages (fun prev => prev ++ [errorMessage]))))
      (perform (SetIsLoading false)).

(** [{...newEvent, latitude: parseFloat(...), longitude: parseFloat(...)}] *)
Definition eventData (f : EventForm) : list (jsstring * value) :=
  JsValue.set
    (JsValue.set (form_object f)
                 (js "latitude") (VNum (JsNumber.parseFloat (form_latitude f))))
    (js "longitude") (VNum (JsNumber.parseFloat (form_longitude f))).

Definition add_event_request (r : AppState) : Request :=
  mkRequest (BACKEND_URL ++ js "/api/events") POST json_headers
            (JSON.stringify (VObj (eventData (newEvent r)))).

(** [fetchEvents()] is not awaited; it is the last statement of the
    [try] block and catches its own errors. *)
Definition handleAddEvent (r : AppState) : Prog unit :=
  catch
    (response <- await_fetch (add_event_request r) ;;
     if ok response then
       perform (SetShowAddEvent false) ;;
       perform (SetNewEvent empty_form) ;;
       fetchEvents
     else ret tt)
    (fun error => perform (ConsoleError (js "Error adding event:") error)).

Definition addPreference (category : jsstring) (r : AppState) : Prog unit :=
  if negb (includes (preferences r) category)
  then perform (SetPreferences (preferences r ++ [category]))
  else ret tt.

Definition removePreference (category : jsstring) (r : AppState) : Prog unit :=
  perform (SetPreferences
             (filter (fun p => negb (JsString.eqb p category)) (preferences r))).

(** The text field's [onChange]. *)
Definition onInputChange (v : jsstring) (r : AppState) : Prog unit :=
  perform (SetInputMessage v).

(** The dialog's [onOpenChange]. *)
Definition onOpenChange (open : bool) (r : AppState) : Prog unit :=
  perform (SetShowAddEvent open).

(** The [onChange] of the latitude and longitude fields:
    [setNewEvent({...newEvent, latitude: e.target.value})]. *)
Definition onLatitudeChange (v : jsstring) (r : AppState) : Prog unit :=
  let f := newEvent r in
  perform (SetNewEvent
             (mkEventForm (title f) (description f) (category f) (date f) (time f)
                          (location f) (address f) v (form_longitude f)
                          (organizer f) (price f) (image_url f))).

Definition onLongitudeChange (v : jsstring) (r : AppState) : Prog unit :=
  let f := newEvent r in
  perform (SetNewEvent
             (mkEventForm (title f) (description f) (category f) (date f) (time f)
                          (location f) (address f) (form_latitude f) v
                          (organizer f) (price f) (image_url f))).

(** The last statement of the mount effect. *)
Definition welcome : Prog unit :=
  ts <- ask ToLocaleTimeString ;;
  perform (SetMessages (fun _ => [mkChatMessage 1 bot (VStr greeting) ts])).

(** The mount effect: [requestLocation(); fetchEvents(); setMessages([...])].
    Neither call is awaited: the position callback and the events may
    arrive later or never.  Each writes a state variable of its own, so
    the state they leave does not depend on the order in which they
    arrive; they are run here in program order. *)
Definition mount (env : Env) (w : World) : World :=
  fst (run env welcome
           (fst (run env fetchEvents (locate env w)))).

End App.

(** ** Derived notions used by the statements *)

(** The chat request failed as far as [handleSendMessage] and
    [handleAddEvent] test it: the fetch rejected, or the response is not
    ok. *)
Definition fetch_failed (o : FetchOutcome) : Prop :=
  match o with
  | Rejected _ => True
  | Resolved r => ok r = false
  end.

(** The parsed body of a chat response that [handleSendMessage] goes on
    to display: the status is ok, the body parses, and it is not null. *)
Definition accepted_reply (o : FetchOutcome) : option value :=
  match o with
  | Resolved r =>
      if ok r then
        match json_body r with
        | inr VNull | inr VUndefined | inl _ => None
        | inr data => Some data
        end
      else None
  | Rejected _ => None
  end.

(** [v.k] where it cannot throw. *)
Definition property (v : value) (k : jsstring) : value :=
  match JsValue.get v k with
  | inr x => x
  | inl _ => VUndefined
  end.

(** An updater of the shape [prev => [...prev, m]]. *)
Definition is_append (f : list ChatMessage -> list ChatMessage) : Prop :=
  exists m, forall prev, f prev = prev ++ [m].

(** Every [setMessages] call anywhere in the program, whatever the
    platform answers, passes an appending updater. *)
Fixpoint appends_only (A : Type) (p : Prog A) : Prop :=
  match p with
  | Ret _ | Throw _ => True
  | Do (SetMessages f) k => is_append f /\ appends_only k
  | Do _ k => appends_only k
  | Ask _ k => forall x, appends_only (k x)
  end.

(** A user action on the preference card. *)
Inductive PreferenceAction : Type :=
| AddPreference (category : jsstring)
| RemovePreference (category : jsstring).

Definition preference_handler (a : PreferenceAction) : AppState -> Prog unit :=
  match a with
  | AddPreference c => addPreference c
  | RemovePreference c => removePreference c
  end.

(** A sequence of user actions, each on the render the previous one left. *)
Fixpoint run_actions (env : Env) (acts : list PreferenceAction) (w : World) : World :=
  match acts with
  | a :: rest => run_actions env rest (fst (invoke (preference_handler a) env w))
  | [] => w
  end.

(** The component state with the chat fields replaced. *)
Definition with_chat (s : AppState) (msgs : list ChatMessage) (input : jsstring)
           (loading : bool) : AppState :=
  mkAppState msgs input (userLocation s) (events s) (recommendedEvents s) loading
             (activeTab s) (preferences s) (showAddEvent s) (newEvent s).

(** ** Sample platforms and states *)

Definition backend : jsstring := js "http://localhost:8001".

Definition failed_to_fetch : JsError :=
  PlatformError (js "TypeError") (js "Failed to fetch").

(** A platform whose network answers the n-th request with the n-th
    element of [replies] and leaves later requests unsettled, and whose
    position requests all end as [pos] says ([None]: the permission
    prompt is never answered). *)
Definition scripted (geo : bool) (pos : option PositionOutcome)
           (replies : list FetchOutcome) : Env :=
  mkEnv (fun n => 1700000000000 + Z.of_nat n)%Z
        (fun _ => js "10:00:00 AM")
        geo
        (fun n => nth_error replies n)
        (fun _ => pos).

Definition permission_denied : option PositionOutcome :=
  Some (PositionFailure (PositionError 1)).

Definition no_events : FetchOutcome := Resolved (mkResponse 200 (inr (VArr []))).

Definition gig : value :=
  VObj [ (js "title", VStr (js "Gig")); (js "distance", VNum 1.5%float) ].

Definition reply_with_gig : FetchOutcome :=
  Resolved (mkResponse 200
              (inr (VObj [ (js "response", VStr (js "Try the gig"));
                           (js "recommended_events", VArr [gig]) ]))).

(** The component before its first render's effects. *)
Definition fresh : World := mkWorld initial_state [] [] 0 0.

(** The component once mounted. *)
Definition mounted (env : Env) : World := mount backend env fresh.

(** The user types [text]. *)
Definition typing (env : Env) (text : jsstring) (w : World) : World :=
  fst (invoke (onInputChange text) env w).

(** The user types [text] and sends it. *)
Definition chat_turn (env : Env) (text : jsstring) (w : World) : World :=
  fst (invoke (handleSendMessage backend) env (typing env text w)).

(** The user opens the dialog and fills in the two coordinates. *)
Definition filling (env : Env) (lat long : jsstring) (w : World) : World :=
  fst (invoke (onLongitudeChange long) env
         (fst (invoke (onLatitudeChange lat) env
                 (fst (invoke (onOpenChange true) env w))))).

(** ** The rest of the component *)

(** The [categories] constant of [App]. *)
Definition categories : list jsstring :=
  [ js "Music"; js "Food & Drink"; js "Arts & Culture"; js "Sports & Fitness";
    js "Business & Networking"; js "Health & Wellness"; js "Technology";
    js "Education"; js "Community"; js "Entertainment" ].

(** The items of the preference Select:
    [categories.filter(cat => !preferences.includes(cat))]. *)
Definition offered (r : AppState) : list jsstring :=
  filter (fun cat => negb (includes (preferences r) cat)) categories.

(** What the preference card lets the user do in render [r]: pick an
    item of the Select, or click the badge of a current preference. *)
Definition action_offered (r : AppState) (a : PreferenceAction) : bool :=
  match a with
  | AddPreference c => includes (offered r) c
  | RemovePreference c => includes (preferences r) c
  end.

Fixpoint actions_offered (env : Env) (acts : list PreferenceAction) (w : World) : bool :=
  match acts with
  | a :: rest =>
      action_offered (ui w) a
      && actions_offered env rest (fst (invoke (preference_handler a) env w))
  | [] => true
  end.

(** [disabled={isLoading}], on the text field and on the Send button. *)
Definition send_disabled (r : AppState) : bool := isLoading r.

(** The condition of [handleKeyPress]: [e.key === 'Enter' && !e.shiftKey]. *)
Definition submits (key : jsstring) (shiftKey : bool) : bool :=
  JsString.eqb key (js "Enter") && negb shiftKey.

(** What [handleKeyPress] has done when it returns, which it does at
    once: whether it called [e.preventDefault()], and the
    [handleSendMessage()] call it made without awaiting it, if any. *)
Record KeyPress : Type := mkKeyPress {
  defaultPrevented : bool;
  started : option (Prog unit)
}.

Definition handleKeyPress (BACKEND_URL : jsstring) (key : jsstring) (shiftKey : bool)
           (r : AppState) : KeyPress :=
  if submits key shiftKey
  then mkKeyPress true (Some (handleSendMessage BACKEND_URL r))
  else mkKeyPress false None.

(** The user types and sends each of [texts] in turn. *)
Fixpoint chat_turns (BACKEND_URL : jsstring) (env : Env) (texts : list jsstring)
         (w : World) : World :=
  match texts with
  | text :: rest =>
      chat_turns BACKEND_URL env rest
        (fst (invoke (handleSendMessage BACKEND_URL) env
                     (fst (invoke (onInputChange text) env w))))
  | [] => w
  end.

(** A platform whose network answers every request with [o]. *)
Definition answering (o : FetchOutcome) : Env :=
  mkEnv (fun n => 1700000000000 + Z.of_nat n)%Z
        (fun _ => js "10:00:00 AM")
        false
        (fun _ => Some o)
        (fun _ => None).

Definition times_square : Location := mkLocation 40.758%float (-73.9855)%float.

Definition created : FetchOutcome :=
  Resolved (mkResponse 201 (inr (VObj [ (js "id", VStr (js "e1")) ]))).

Definition one_event : FetchOutcome :=
  Resolved (mkResponse 200 (inr (VArr [gig]))).

(** Every effect anywhere in the program, whatever the platform
    answers, is one of those [allowed]. *)
Fixpoint effects_within (allowed : Effect -> Prop) (A : Type) (p : Prog A) : Prop :=
  match p with
  | Ret _ | Throw _ => True
  | Do u k => allowed u /\ effects_within allowed k
  | Ask _ k => forall x, effects_within allowed (k x)
  end.

(** No path of the program ends in an exception that nothing caught. *)
Fixpoint never_throws (A : Type) (p : Prog A) : Prop :=
  match p with
  | Ret _ => True
  | Throw _ => False
  | Do _ k => never_throws k
  | Ask _ k => forall x, never_throws (k x)
  end.

(** The state variables each handler writes. *)
Definition chat_effect (u : Effect) : Prop :=
  match u with
  | SetMessages _ | SetInputMessage _ | SetIsLoading _
  | SetRecommendedEvents _ | ConsoleError _ _ => True
  | _ => False
  end.

Definition events_effect (u : Effect) : Prop :=
  match u with
  | SetEvents _ | SetShowAddEvent _ | SetNewEvent _ | ConsoleError _ _ => True
  | _ => False
  end.

Definition location_effect (u : Effect) : Prop :=
  match u with
  | SetUserLocation _ | ConsoleError _ _ => True
  | _ => False
  end.

(** A JSON tree whose numbers are all finite. *)
Fixpoint finite_json (j : json) : bool :=
  match j with
  | JNum x => JsNumber.isFinite x
  | JArr xs => forallb finite_json xs
  | JObj ms => forallb (fun m => finite_json (snd m)) ms
  | _ => true
  end.

(** * Properties *)

Section AppFacts.

Variable BACKEND_URL : jsstring.

(** *** Platform functions *)

Lemma trimStart_blank (s : jsstring) :
  forallb JsString.is_space s = true -> JsString.trimStart s = [].
Proof.
  induction s as [| c s IH]; cbn; [reflexivity |].
  intros H. apply andb_prop in H. destruct H as [Hc Hs].
  rewrite Hc. apply IH, Hs.
Qed.

Lemma trimStart_nil_blank (s : jsstring) :
  JsString.trimStart s = [] -> forallb JsString.is_space s = true.
Proof.
  induction s as [| c s IH]; cbn; [reflexivity |].
  destruct (JsString.is_space c); [exact IH | discriminate].
Qed.

(** A string trims to the empty string exactly when all its code units
    are white space. *)
Lemma trim_blank (s : jsstring) :
  JsString.trim s = [] <-> forallb JsString.is_space s = true.
Proof.
  unfold JsString.trim, JsString.trimEnd. split.
  - intros H. apply trimStart_nil_blank.
    destruct (JsString.trimStart s) as [| c s'] eqn:Hs; [reflexivity |].
    pose proof (f_equal (@List.length N) H) as Hlen.
    rewrite length_rev in Hlen.
    assert (Hrev : JsString.trimStart (rev (c :: s')) = []).
    { destruct (JsString.trimStart (rev (c :: s'))); [reflexivity | discriminate]. }
    apply trimStart_nil_blank in Hrev.
    rewrite forallb_forall in Hrev.
    assert (Hc : JsString.is_space c = true).
    { apply Hrev. rewrite <- in_rev. left. reflexivity. }
    clear - Hs Hc. exfalso.
    induction s as [| d s IH]; cbn in Hs; [discriminate |].
    destruct (JsString.is_space d) eqn:Hd; [exact (IH Hs) |].
    injection Hs as -> _. congruence.
  - intros H. rewrite (trimStart_blank s H). reflexivity.
Qed.

Lemma truthy_nonempty (s : jsstring) : s <> [] -> JsString.truthy s = true.
Proof. destruct s; [congruence | reflexivity]. Qed.

(** C9. Sending a message that trims to the empty string does nothing:
    no request is issued, and the messages, the input field, the loading
    flag and the recommended events are as they were. *)
Theorem handleSendMessage_blank_noop (env : Env) (w : World) :
  JsString.trim (inputMessage (ui w)) = [] ->
  invoke (handleSendMessage BACKEND_URL) env w = (w, Returned tt).
Proof.
  intros Hblank. unfold invoke, handleSendMessage.
  rewrite Hblank. reflexivity.
Qed.

(** C1. When the chat request of a non-blank message is rejected or
    answered with a status that is not ok, the handler appends, after
    the user message, one bot message holding the fixed apology, spelled
    out below; the one chat request is the only request issued; and the
    resulting state does not depend on what the failure was. *)
Theorem handleSendMessage_failure (env : Env) (w : World) (o : FetchOutcome) :
  JsString.trim (inputMessage (ui w)) <> [] ->
  network env (List.length (requests w)) = Some o ->
  fetch_failed o ->
  let w' := fst (invoke (handleSendMessage BACKEND_URL) env w) in
  let t := clock_reads w in
  let userMessage :=
    mkChatMessage (now env t) user (VStr (inputMessage (ui w))) (localeTime env (1 + t)) in
  let errorMessage :=
    mkChatMessage
      (now env (2 + t) + 1) bot
      (VStr (js "I'm sorry, I'm having trouble connecting right now. Please try again in a moment."))
      (localeTime env (3 + t)) in
  ui w' = with_chat (ui w) (messages (ui w) ++ [userMessage; errorMessage]) [] false
  /\ requests w' = requests w ++ [chat_request BACKEND_URL (ui w)]
  /\ snd (invoke (handleSendMessage BACKEND_URL) env w) = Returned tt.
Proof.
  intros Hinput Hnet Hfail. unfold invoke, handleSendMessage.
  rewrite (truthy_nonempty Hinput). cbn.
  rewrite Hnet.
  destruct o as [resp | reason]; cbn in *.
  - rewrite Hfail. cbn. unfold with_chat. rewrite <- app_assoc. auto.
  - unfold with_chat. rewrite <- app_assoc. auto.
Qed.

(** C2. Every send of a non-blank message whose request settles, in
    success or in failure, appends exactly two messages: first one of
    type user holding the input, then one of type bot. *)
Theorem handleSendMessage_one_user_one_bot (env : Env) (w : World) (o : FetchOutcome) :
  JsString.trim (inputMessage (ui w)) <> [] ->
  network env (List.length (requests w)) = Some o ->
  exists u b,
    messages (ui (fst (invoke (handleSendMessage BACKEND_URL) env w)))
    = messages (ui w) ++ [u; b]
    /\ type u = user /\ content u = VStr (inputMessage (ui w))
    /\ type b = bot.
Proof.
  intros Hinput Hnet. unfold invoke, handleSendMessage.
  rewrite (truthy_nonempty Hinput). cbn. rewrite Hnet.
  destruct o as [resp | reason]; cbn.
  - destruct (ok resp); cbn.
    + unfold await_json. destruct (json_body resp) as [e | data]; cbn.
      * do 2 eexists. rewrite <- app_assoc. cbn. repeat split.
      * destruct data; cbn;
          do 2 eexists; rewrite <- app_assoc; cbn; repeat split.
    + do 2 eexists. rewrite <- app_assoc. cbn. repeat split.
  - do 2 eexists. rewrite <- app_assoc. cbn. repeat split.
Qed.

(** *** Appending updaters *)

Lemma answer_ui (env : Env) (X : Type) (q : Query X) (w : World) :
  ui (fst (answer env q w)) = ui w.
Proof. destruct q; reflexivity. Qed.

Lemma appends_only_bind (A B : Type) (p : Prog A) (f : A -> Prog B) :
  appends_only p -> (forall a, appends_only (f a)) -> appends_only (bind_prog p f).
Proof.
  intros Hp Hf. induction p as [a | e | u k IH | X q k IH]; cbn in *.
  - apply Hf.
  - exact I.
  - destruct u; cbn in *; try (apply IH; exact Hp).
    destruct Hp as [Hu Hk]. split; [exact Hu | apply IH; exact Hk].
  - intros x. apply IH, Hp.
Qed.

Lemma appends_only_catch (A : Type) (p : Prog A) (h : JsError -> Prog A) :
  appends_only p -> (forall e, appends_only (h e)) -> appends_only (try_catch p h).
Proof.
  intros Hp Hh. induction p as [a | e | u k IH | X q k IH]; cbn in *.
  - exact I.
  - apply Hh.
  - destruct u; cbn in *; try (apply IH; exact Hp).
    destruct Hp as [Hu Hk]. split; [exact Hu | apply IH; exact Hk].
  - intros x. apply IH, Hp.
Qed.

Lemma appends_only_finally (A : Type) (p : Prog A) (f : Prog unit) :
  appends_only p -> appends_only f -> appends_only (try_finally p f).
Proof.
  intros Hp Hf. induction p as [a | e | u k IH | X q k IH]; cbn in *.
  - apply appends_only_bind; [exact Hf | intros; exact I].
  - apply appends_only_bind; [exact Hf | intros; exact I].
  - destruct u; cbn in *; try (apply IH; exact Hp).
    destruct Hp as [Hu Hk]. split; [exact Hu | apply IH; exact Hk].
  - intros x. apply IH, Hp.
Qed.

(** A program that only appends leaves the messages it finds as a
    prefix of those it leaves, whatever the platform does. *)
Lemma run_appends (A : Type) (p : Prog A) :
  appends_only p ->
  forall env w, exists new,
    messages (ui (fst (run env p w))) = messages (ui w) ++ new.
Proof.
  induction p as [a | e | u k IH | X q k IH]; intros Hp env w; cbn.
  - exists []. now rewrite app_nil_r.
  - exists []. now rewrite app_nil_r.
  - destruct u; cbn in Hp;
      try (match goal with
           | |- context [run env k ?w1] =>
               destruct (IH Hp env w1) as [new Hnew]; exists new; exact Hnew
           end).
    destruct Hp as [[m Hm] Hk].
    destruct (IH Hk env (apply_effect (SetMessages f) w)) as [new Hnew].
    exists (m :: new). rewrite Hnew. cbn. rewrite Hm, <- app_assoc. reflexivity.
  - pose proof (answer_ui env q w) as Hui.
    destruct (answer env q w) as [w' [x |]]; cbn in *.
    + destruct (IH x (Hp x) env w') as [new Hnew].
      exists new. now rewrite Hnew, Hui.
    + exists []. now rewrite Hui, app_nil_r.
Qed.

Lemma is_append_snoc (m : ChatMessage) : is_append (fun prev => prev ++ [m]).
Proof. exists m. reflexivity. Qed.

Lemma handleSendMessage_appends (r : AppState) :
  appends_only (handleSendMessage BACKEND_URL r).
Proof.
  unfold handleSendMessage.
  destruct (negb _); [exact I |].
  cbn. intros t0 ts0. split; [apply is_append_snoc |].
  intros o.
  apply appends_only_finally; [| exact I].
  apply appends_only_catch.
  - destruct o as [resp | reason]; cbn; [| exact I].
    destruct (ok resp); cbn; [| exact I].
    unfold await_json. destruct (json_body resp) as [e | data]; cbn; [exact I |].
    intros t1.
    destruct data; cbn; try exact I;
      intros ts1; (split; [apply is_append_snoc | exact I]).
  - intros e. cbn. intros t1 ts1. split; [apply is_append_snoc | exact I].
Qed.

(** C3. The messages list is append-only under [handleSendMessage]:
    each of its [setMessages] calls passes an updater that appends one
    message to whatever list it is given, and so a run of the handler,
    on any state and whatever the network does, leaves the messages it
    found, unchanged and in order, as a prefix of the new list. *)
Theorem handleSendMessage_append_only (r : AppState) :
  appends_only (handleSendMessage BACKEND_URL r)
  /\ forall env w, exists new,
      messages (ui (fst (run env (handleSendMessage BACKEND_URL r) w)))
      = messages (ui w) ++ new.
Proof.
  split; [apply handleSendMessage_appends |].
  apply run_appends, handleSendMessage_appends.
Qed.

(** *** Preferences *)

Lemma includes_In (l : list jsstring) (x : jsstring) :
  includes l x = true <-> In x l.
Proof.
  unfold includes. rewrite existsb_exists. split.
  - intros [p [Hin Heq]]. unfold JsString.eqb in Heq.
    destruct (JsString.eq_dec p x); [subst; exact Hin | discriminate].
  - intros Hin. exists x. split; [exact Hin |].
    unfold JsString.eqb. destruct (JsString.eq_dec x x); congruence.
Qed.

Lemma NoDup_snoc (l : list jsstring) (x : jsstring) :
  NoDup l -> ~ In x l -> NoDup (l ++ [x]).
Proof.
  induction 1 as [| y l Hy Hl IH]; intros Hx; cbn.
  - constructor; [intros [] | constructor].
  - constructor.
    + rewrite in_app_iff. intros [Hin | [Heq | []]]; [exact (Hy Hin) |].
      apply Hx. left. symmetry. exact Heq.
    + apply IH. intros Hin. apply Hx. right. exact Hin.
Qed.

Lemma preference_step_distinct (a : PreferenceAction) (env : Env) (w : World) :
  NoDup (preferences (ui w)) ->
  NoDup (preferences (ui (fst (invoke (preference_handler a) env w)))).
Proof.
  intros Hnd. destruct a as [c | c]; unfold invoke; cbn.
  - unfold addPreference.
    destruct (includes (preferences (ui w)) c) eqn:Hinc; cbn; [exact Hnd |].
    apply NoDup_snoc; [exact Hnd |].
    intros Hin. apply includes_In in Hin. congruence.
  - apply NoDup_filter. exact Hnd.
Qed.

Lemma run_actions_distinct (env : Env) (acts : list PreferenceAction) :
  forall w, NoDup (preferences (ui w)) ->
            NoDup (preferences (ui (run_actions env acts w))).
Proof.
  induction acts as [| a rest IH]; intros w Hnd; cbn.
  - exact Hnd.
  - apply IH, preference_step_distinct, Hnd.
Qed.

(** C4. The preferences never hold a category twice: from the empty
    list, after any sequence of [addPreference] and [removePreference]
    calls the elements are pairwise distinct; and [addPreference] of a
    category already in the list changes nothing. *)
Theorem preferences_distinct (env : Env) :
  (forall acts w,
      preferences (ui w) = [] ->
      NoDup (preferences (ui (run_actions env acts w))))
  /\ (forall c w,
        In c (preferences (ui w)) ->
        invoke (addPreference c) env w = (w, Returned tt)).
Proof.
  split.
  - intros acts w Hempty. apply run_actions_distinct.
    rewrite Hempty. constructor.
  - intros c w Hin. unfold invoke, addPreference.
    apply includes_In in Hin. rewrite Hin. reflexivity.
Qed.

(** X21. A handler kept from an earlier render cannot break
    distinctness either: it overwrites the list with one built from the
    (distinct) list of its own render. *)
Lemma preference_step_distinct_stale
      (a : PreferenceAction) (r : AppState) (env : Env) (w : World) :
  NoDup (preferences r) -> NoDup (preferences (ui w)) ->
  NoDup (preferences (ui (fst (run env (preference_handler a r) w)))).
Proof.
  intros Hr Hw. destruct a as [c | c]; cbn.
  - unfold addPreference.
    destruct (includes (preferences r) c) eqn:Hinc; cbn; [exact Hw |].
    apply NoDup_snoc; [exact Hr |].
    intros Hin. apply includes_In in Hin. congruence.
  - apply NoDup_filter. exact Hr.
Qed.

(** *** Events *)

(** C7. Failures of the events calls change nothing in the component:
    when the fetch of [fetchEvents] rejects, the events (and the rest of
    the state) are as before; when the request of [handleAddEvent] is
    rejected or answered with a status that is not ok, the form and the
    dialog flag (and the rest of the state) are as before. *)
Theorem events_failures_silent (env : Env) (w : World) :
  (forall reason,
      network env (List.length (requests w)) = Some (Rejected reason) ->
      let w' := fst (run env (fetchEvents BACKEND_URL) w) in
      events (ui w') = events (ui w) /\ ui w' = ui w)
  /\ (forall o,
        network env (List.length (requests w)) = Some o ->
        fetch_failed o ->
        let w' := fst (invoke (handleAddEvent BACKEND_URL) env w) in
        newEvent (ui w') = newEvent (ui w)
        /\ showAddEvent (ui w') = showAddEvent (ui w)
        /\ ui w' = ui w).
Proof.
  split.
  - intros reason Hnet. unfold fetchEvents. cbn. rewrite Hnet. cbn. auto.
  - intros o Hnet Hfail. unfold invoke, handleAddEvent. cbn. rewrite Hnet.
    destruct o as [resp | reason]; cbn in *.
    + rewrite Hfail. cbn. auto.
    + auto.
Qed.

(** *** Location *)

Lemma ltb_succ (n : nat) : (n <? S n)%nat = true.
Proof. apply Nat.ltb_lt. lia. Qed.

(** C10, as the code has it. When the browser has no geolocation, or
    the error callback of the position request is called,
    [requestLocation] sets the user location to latitude 40.7589,
    longitude -73.9851, and once either is the case or the success
    callback has been called the user location is not null.  The call
    itself always returns at once, and with geolocation it returns
    without having set the user location: the location is as it was
    until the browser calls back. *)
Theorem requestLocation_default (env : Env) (w : World) :
  (geolocation env = false
   \/ (exists error, position env (position_requests w) = Some (PositionFailure error)) ->
   userLocation (ui (locate env w))
   = Some (mkLocation 40.7589%float (-73.9851)%float))
  /\ (forall error w0,
        userLocation (ui (fst (run env (position_callback (PositionFailure error)) w0)))
        = Some (mkLocation 40.7589%float (-73.9851)%float))
  /\ (geolocation env = false
      \/ (exists outcome, position env (position_requests w) = Some outcome) ->
      userLocation (ui (locate env w)) <> None)
  /\ snd (run env requestLocation w) = Returned tt
  /\ (geolocation env = true ->
      userLocation (ui (fst (run env requestLocation w))) = userLocation (ui w)
      /\ (position env (position_requests w) = None ->
          userLocation (ui (locate env w)) = userLocation (ui w))).
Proof.
  unfold locate, requestLocation. cbn -[Nat.ltb].
  destruct (geolocation env) eqn:Hgeo; cbn -[Nat.ltb].
  - rewrite ltb_succ.
    destruct (position env (position_requests w)) as [[coords | error] |] eqn:Hpos; cbn.
    + split; [intros [Hno | [error Herr]]; discriminate |].
      split; [reflexivity |]. split; [discriminate |].
      split; [reflexivity |]. intros _. split; [reflexivity | discriminate].
    + split; [reflexivity |].
      split; [reflexivity |]. split; [discriminate |].
      split; [reflexivity |]. intros _. split; [reflexivity | discriminate].
    + split; [intros [Hno | [error Herr]]; discriminate |].
      split; [reflexivity |].
      split; [intros [Hno | [outcome Hout]]; discriminate |].
      split; [reflexivity |]. intros _. split; reflexivity.
  - rewrite Nat.ltb_irrefl.
    split; [reflexivity |]. split; [reflexivity |]. split; [discriminate |].
    split; [reflexivity |]. discriminate.
Qed.

(** *** Request bodies *)

Lemma stringify_strings (l : list jsstring) :
  JSON.stringify (VArr (map VStr l)) = Some (JArr (map JStr l)).
Proof.
  cbn. rewrite map_map. reflexivity.
Qed.

Lemma handleSendMessage_requests (env : Env) (w : World) :
  JsString.trim (inputMessage (ui w)) <> [] ->
  requests (fst (invoke (handleSendMessage BACKEND_URL) env w))
  = requests w ++ [chat_request BACKEND_URL (ui w)].
Proof.
  intros Hinput. unfold invoke, handleSendMessage.
  rewrite (truthy_nonempty Hinput). cbn.
  destruct (network env (List.length (requests w))) as [[resp | reason] |]; cbn;
    [| reflexivity | reflexivity].
  destruct (ok resp); cbn; [| reflexivity].
  unfold await_json. destruct (json_body resp) as [e | data]; cbn; [reflexivity |].
  destruct data; reflexivity.
Qed.

(** C6, as the code has it. Every send of a non-blank message issues
    one request, whose body always has the fields [message] (the input
    text) and [preferences] (the preference list); it has the fields
    [latitude] and [longitude], holding the user location's coordinates,
    exactly when the user location is set, and neither of them while the
    user location is null. *)
Theorem chat_request_body (env : Env) (w : World) :
  JsString.trim (inputMessage (ui w)) <> [] ->
  exists b,
    requests (fst (invoke (handleSendMessage BACKEND_URL) env w))
    = requests w ++ [mkRequest (BACKEND_URL ++ js "/api/chat") POST json_headers (Some b)]
    /\ JSON.field b (js "message") = Some (JStr (inputMessage (ui w)))
    /\ JSON.field b (js "preferences") = Some (JArr (map JStr (preferences (ui w))))
    /\ match userLocation (ui w) with
       | Some l =>
           JSON.field b (js "latitude") = Some (JSON.of_number (latitude l))
           /\ JSON.field b (js "longitude") = Some (JSON.of_number (longitude l))
       | None =>
           JSON.field b (js "latitude") = None
           /\ JSON.field b (js "longitude") = None
       end.
Proof.
  intros Hinput.
  pose proof (stringify_strings (preferences (ui w))) as Hprefs.
  cbn in Hprefs. injection Hprefs as Hprefs.
  rewrite (handleSendMessage_requests env w Hinput).
  unfold chat_request, chat_payload.
  destruct (userLocation (ui w)) as [l |]; cbn; rewrite Hprefs;
    eexists; (split; [reflexivity |]); cbn; auto.
Qed.

(** C5, as the code has it. [handleAddEvent] validates nothing: every
    submission issues the POST request, and the [latitude] and
    [longitude] fields of its body are the serialisation of
    [parseFloat] of the form strings, which is that number when it is
    finite and [null] when the string does not parse. *)
Theorem add_event_request_body (env : Env) (w : World) :
  exists b later,
    requests (fst (invoke (handleAddEvent BACKEND_URL) env w))
    = requests w
      ++ mkRequest (BACKEND_URL ++ js "/api/events") POST json_headers (Some b) :: later
    /\ JSON.field b (js "latitude")
       = Some (JSON.of_number (JsNumber.parseFloat (form_latitude (newEvent (ui w)))))
    /\ JSON.field b (js "longitude")
       = Some (JSON.of_number (JsNumber.parseFloat (form_longitude (newEvent (ui w))))).
Proof.
  eexists.
  assert (Hreq : exists later,
             requests (fst (invoke (handleAddEvent BACKEND_URL) env w))
             = requests w ++ add_event_request BACKEND_URL (ui w) :: later).
  { unfold invoke, handleAddEvent. cbn.
    destruct (network env (List.length (requests w))) as [[resp | reason] |]; cbn;
      [| exists []; reflexivity | exists []; reflexivity].
    destruct (ok resp); cbn; [| exists []; reflexivity].
    exists [events_request BACKEND_URL].
    rewrite length_app. cbn.
    destruct (network env (List.length (requests w) + 1)) as [[resp' | reason'] |]; cbn;
      rewrite <- ?app_assoc; try reflexivity.
    unfold await_json. destruct (json_body resp'); cbn; rewrite <- ?app_assoc; reflexivity. }
  destruct Hreq as [later Hreq]. exists later.
  split; [exact Hreq |].
  split; reflexivity.
Qed.

(** C8, as the code has it. After a chat turn whose response is
    accepted (ok status, parsed body, not null), the recommended events
    are that response's [recommended_events], or the empty list when
    that is missing or falsy, whatever they were before; after a chat
    turn that fails, they are what they were before the turn. *)
Theorem recommended_events_after_turn (env : Env) (w : World) (o : FetchOutcome) :
  JsString.trim (inputMessage (ui w)) <> [] ->
  network env (List.length (requests w)) = Some o ->
  recommendedEvents (ui (fst (invoke (handleSendMessage BACKEND_URL) env w)))
  = match accepted_reply o with
    | Some data => JsValue.or (property data (js "recommended_events")) (VArr [])
    | None => recommendedEvents (ui w)
    end.
Proof.
  intros Hinput Hnet. unfold invoke, handleSendMessage.
  rewrite (truthy_nonempty Hinput). cbn. rewrite Hnet.
  destruct o as [resp | reason]; cbn; [| reflexivity].
  destruct (ok resp); cbn; [| reflexivity].
  unfold await_json. destruct (json_body resp) as [e | data]; cbn; [reflexivity |].
  destruct data; reflexivity.
Qed.

End AppFacts.

(** * Further properties of the component *)

Section AppMore.

Variable BACKEND_URL : jsstring.

Lemma nonblank_truthy (s : jsstring) :
  JsString.trim s <> [] -> JsString.truthy (JsString.trim s) = true.
Proof. destruct (JsString.trim s); [congruence | reflexivity]. Qed.

(** *** Chat turns *)

(** X1. A non-blank send whose reply is accepted ends with the user
    message and a bot message holding the reply's [response] appended,
    the input cleared, the loading flag down, the recommended events
    replaced; one request went out, the clock was read four times, and
    nothing was logged. *)
Theorem handleSendMessage_accepted (env : Env) (w : World) (o : FetchOutcome) (data : value) :
  JsString.trim (inputMessage (ui w)) <> [] ->
  network env (List.length (requests w)) = Some o ->
  accepted_reply o = Some data ->
  let t := clock_reads w in
  let userMessage :=
    mkChatMessage (now env t) user (VStr (inputMessage (ui w))) (localeTime env (1 + t)) in
  let botMessage :=
    mkChatMessage (now env (2 + t) + 1) bot (property data (js "response"))
                  (localeTime env (3 + t)) in
  invoke (handleSendMessage BACKEND_URL) env w
  = (mkWorld
       (mkAppState (messages (ui w) ++ [userMessage; botMessage]) []
                   (userLocation (ui w)) (events (ui w))
                   (JsValue.or (property data (js "recommended_events")) (VArr []))
                   false (activeTab (ui w)) (preferences (ui w))
                   (showAddEvent (ui w)) (newEvent (ui w)))
       (requests w ++ [chat_request BACKEND_URL (ui w)])
       (console w) (4 + t) (position_requests w),
     Returned tt).
Proof.
  intros Hinput Hnet Hacc. unfold invoke, handleSendMessage.
  rewrite (nonblank_truthy _ Hinput). cbn. rewrite Hnet.
  destruct o as [resp | reason]; cbn in *; [| discriminate].
  destruct (ok resp); cbn in *; [| discriminate].
  unfold await_json. destruct (json_body resp) as [e | body]; cbn in *; [discriminate |].
  destruct body; try discriminate; injection Hacc as <-;
    cbn; unfold with_ui; cbn; rewrite <- app_assoc; reflexivity.
Qed.

(** X2. A non-blank send whose request settles without an accepted
    reply (rejected, status not ok, body that does not parse, null body)
    ends with the user message and one apology appended, the input
    cleared, the loading flag down, everything else in the state as it
    was, and exactly one entry, labelled [Error sending message:], added
    to the console. *)
Theorem handleSendMessage_not_accepted (env : Env) (w : World) (o : FetchOutcome) :
  JsString.trim (inputMessage (ui w)) <> [] ->
  network env (List.length (requests w)) = Some o ->
  accepted_reply o = None ->
  exists n ts error,
    let t := clock_reads w in
    let userMessage :=
      mkChatMessage (now env t) user (VStr (inputMessage (ui w))) (localeTime env (1 + t)) in
    let errorMessage := mkChatMessage (now env n + 1) bot (VStr apology) ts in
    invoke (handleSendMessage BACKEND_URL) env w
    = (mkWorld
         (with_chat (ui w) (messages (ui w) ++ [userMessage; errorMessage]) [] false)
         (requests w ++ [chat_request BACKEND_URL (ui w)])
         (console w ++ [(js "Error sending message:", error)])
         (2 + n) (position_requests w),
       Returned tt).
Proof.
  intros Hinput Hnet Hacc. unfold invoke, handleSendMessage.
  rewrite (nonblank_truthy _ Hinput). cbn. rewrite Hnet.
  destruct o as [resp | reason]; cbn in *.
  - destruct (ok resp); cbn in *.
    + unfold await_json. destruct (json_body resp) as [e | body]; cbn in *.
      * do 3 eexists. unfold with_chat, with_ui. cbn. rewrite <- app_assoc. reflexivity.
      * destruct body; try discriminate; cbn;
          do 3 eexists; unfold with_chat, with_ui; cbn; rewrite <- app_assoc; reflexivity.
    + do 3 eexists. unfold with_chat, with_ui. cbn. rewrite <- app_assoc. reflexivity.
  - do 3 eexists. unfold with_chat, with_ui. cbn. rewrite <- app_assoc. reflexivity.
Qed.

(** X3. While the request of a non-blank send has not settled, the user
    message is shown, the input is cleared, and the loading flag is up,
    which disables the text field and the Send button; no bot message has
    been added. *)
Theorem handleSendMessage_pending (env : Env) (w : World) :
  JsString.trim (inputMessage (ui w)) <> [] ->
  network env (List.length (requests w)) = None ->
  let t := clock_reads w in
  let userMessage :=
    mkChatMessage (now env t) user (VStr (inputMessage (ui w))) (localeTime env (1 + t)) in
  let w' := fst (invoke (handleSendMessage BACKEND_URL) env w) in
  ui w' = with_chat (ui w) (messages (ui w) ++ [userMessage]) [] true
  /\ send_disabled (ui w') = true
  /\ requests w' = requests w ++ [chat_request BACKEND_URL (ui w)]
  /\ snd (invoke (handleSendMessage BACKEND_URL) env w) = Pending.
Proof.
  intros Hinput Hnet. unfold invoke, handleSendMessage.
  rewrite (nonblank_truthy _ Hinput). cbn. rewrite Hnet. cbn. auto.
Qed.

Lemma send_settled (env : Env) (w : World) (o : FetchOutcome) :
  JsString.trim (inputMessage (ui w)) <> [] ->
  network env (List.length (requests w)) = Some o ->
  let w' := fst (invoke (handleSendMessage BACKEND_URL) env w) in
  List.length (messages (ui w')) = (2 + List.length (messages (ui w)))%nat
  /\ List.length (requests w') = S (List.length (requests w))
  /\ isLoading (ui w') = false
  /\ inputMessage (ui w') = []
  /\ preferences (ui w') = preferences (ui w).
Proof.
  intros Hinput Hnet. unfold invoke, handleSendMessage.
  rewrite (nonblank_truthy _ Hinput). cbn. rewrite Hnet.
  assert (Hlen : forall (l : list ChatMessage) a b,
             List.length ((l ++ [a]) ++ [b]) = S (S (List.length l))).
  { intros. rewrite !length_app. cbn. lia. }
  assert (Hreq : forall (l : list Request) a, List.length (l ++ [a]) = S (List.length l)).
  { intros. rewrite length_app. cbn. lia. }
  destruct o as [resp | reason]; cbn.
  - destruct (ok resp); cbn.
    + unfold await_json. destruct (json_body resp) as [e | body]; cbn.
      * rewrite Hlen, Hreq. auto.
      * destruct body; cbn; rewrite Hlen, Hreq; auto.
    + rewrite Hlen, Hreq. auto.
  - rewrite Hlen, Hreq. auto.
Qed.

(** X4. Conversations compose: when every request settles, typing and
    sending k non-blank texts one after the other adds exactly 2k
    messages and issues exactly k requests, and after the last turn the
    input is empty and the loading flag is down. *)
Theorem chat_turns_count (env : Env) (texts : list jsstring) :
  (forall n, network env n <> None) ->
  Forall (fun text => JsString.trim text <> []) texts ->
  forall w,
    let w' := chat_turns BACKEND_URL env texts w in
    List.length (messages (ui w')) = (List.length (messages (ui w)) + 2 * List.length texts)%nat
    /\ List.length (requests w') = (List.length (requests w) + List.length texts)%nat
    /\ (texts <> [] -> isLoading (ui w') = false /\ inputMessage (ui w') = []).
Proof.
  intros Hsettles Htexts.
  induction Htexts as [| text rest Htext Hrest IH]; intros w; cbv zeta; cbn [chat_turns].
  - cbn. split; [lia |]. split; [lia |]. intros Hne. exfalso. apply Hne. reflexivity.
  - set (w0 := fst (invoke (onInputChange text) env w)).
    assert (Hw0 : messages (ui w0) = messages (ui w) /\ requests w0 = requests w
                  /\ inputMessage (ui w0) = text) by (cbn; auto).
    destruct Hw0 as [Hm0 [Hr0 Hi0]].
    destruct (network env (List.length (requests w0))) as [o |] eqn:Hnet;
      [| exfalso; exact (Hsettles _ Hnet)].
    assert (Hinput : JsString.trim (inputMessage (ui w0)) <> []) by (rewrite Hi0; exact Htext).
    destruct (send_settled env w0 Hinput Hnet) as [Hm1 [Hr1 [Hl1 [Hi1 _]]]].
    set (w1 := fst (invoke (handleSendMessage BACKEND_URL) env w0)) in *.
    destruct (IH w1) as [Hm [Hr Hlast]].
    rewrite Hm, Hr, Hm1, Hr1, Hm0, Hr0. cbn [List.length].
    split; [lia |]. split; [lia |]. intros _.
    destruct rest as [| text' rest']; [cbn; auto | apply Hlast; discriminate].
Qed.

(** X5. A send goes out exactly when the input has a code unit that is
    not white space: an input of white space only changes nothing at all,
    any other input issues the one chat request. *)
Theorem handleSendMessage_sends_iff (env : Env) (w : World) :
  (forallb JsString.is_space (inputMessage (ui w)) = true ->
   invoke (handleSendMessage BACKEND_URL) env w = (w, Returned tt))
  /\ (forallb JsString.is_space (inputMessage (ui w)) = false ->
      requests (fst (invoke (handleSendMessage BACKEND_URL) env w))
      = requests w ++ [chat_request BACKEND_URL (ui w)]).
Proof.
  split; intros Hspace.
  - apply (trim_blank (inputMessage (ui w))) in Hspace.
    unfold invoke, handleSendMessage. rewrite Hspace. reflexivity.
  - apply handleSendMessage_requests.
    intros Hblank. apply trim_blank in Hblank. congruence.
Qed.

(** X22. Within a turn the two messages get different ids, the bot's
    the greater, as long as the clock does not run backwards. *)
Theorem turn_ids_increase (env : Env) (w : World) (o : FetchOutcome) :
  JsString.trim (inputMessage (ui w)) <> [] ->
  network env (List.length (requests w)) = Some o ->
  (forall m n, (m <= n)%nat -> (now env m <= now env n)%Z) ->
  exists u b,
    messages (ui (fst (invoke (handleSendMessage BACKEND_URL) env w)))
    = messages (ui w) ++ [u; b]
    /\ (id u < id b)%Z.
Proof.
  intros Hinput Hnet Hclock. unfold invoke, handleSendMessage.
  rewrite (nonblank_truthy _ Hinput). cbn. rewrite Hnet.
  pose proof (Hclock (clock_reads w) (S (S (clock_reads w)))) as H2.
  pose proof (Hclock (clock_reads w) (S (S (S (clock_reads w))))) as H3.
  destruct o as [resp | reason]; cbn.
  - destruct (ok resp); cbn.
    + unfold await_json. destruct (json_body resp) as [e | body]; cbn.
      * do 2 eexists. rewrite <- app_assoc. split; [reflexivity | cbn; lia].
      * destruct body; cbn;
          do 2 eexists; rewrite <- app_assoc; (split; [reflexivity | cbn; lia]).
    + do 2 eexists. rewrite <- app_assoc. split; [reflexivity | cbn; lia].
  - do 2 eexists. rewrite <- app_assoc. split; [reflexivity | cbn; lia].
Qed.

(** X23. Missing keys in an accepted reply: when the reply is an object
    without [response], the bot message is still appended, with
    [undefined] as its content; when it has no [recommended_events], the
    recommended events are emptied. *)
Theorem handleSendMessage_missing_keys
        (env : Env) (w : World) (resp : Response) (props : list (jsstring * value)) :
  JsString.trim (inputMessage (ui w)) <> [] ->
  network env (List.length (requests w)) = Some (Resolved resp) ->
  ok resp = true ->
  json_body resp = inr (VObj props) ->
  let w' := fst (invoke (handleSendMessage BACKEND_URL) env w) in
  (JsValue.lookup props (js "response") = None ->
   exists u b,
     messages (ui w') = messages (ui w) ++ [u; b]
     /\ type b = bot /\ content b = VUndefined)
  /\ (JsValue.lookup props (js "recommended_events") = None ->
      recommendedEvents (ui w') = VArr []).
Proof.
  intros Hinput Hnet Hok Hbody. unfold invoke, handleSendMessage.
  rewrite (nonblank_truthy _ Hinput). cbn. rewrite Hnet. cbn. rewrite Hok. cbn.
  unfold await_json. rewrite Hbody. cbn. unfold read, JsValue.get.
  change (JsString.lit "response") with (js "response").
  change (JsString.lit "recommended_events") with (js "recommended_events").
  split; intros Hmissing.
  - do 2 eexists. cbn. rewrite Hmissing. cbn. rewrite <- app_assoc.
    split; [reflexivity |]. split; reflexivity.
  - cbn. destruct (JsValue.lookup props (js "response")); cbn;
      rewrite Hmissing; reflexivity.
Qed.

(** *** Exceptions *)

Lemma never_throws_bind (A B : Type) (p : Prog A) (f : A -> Prog B) :
  never_throws p -> (forall a, never_throws (f a)) -> never_throws (bind_prog p f).
Proof.
  intros Hp Hf. induction p as [a | e | u k IH | X q k IH]; cbn in *.
  - apply Hf.
  - contradiction.
  - apply IH, Hp.
  - intros x. apply IH, Hp.
Qed.

(** Whatever the body does, a [try] whose [catch] block cannot throw
    lets nothing out. *)
Lemma never_throws_catch (A : Type) (p : Prog A) (h : JsError -> Prog A) :
  (forall e, never_throws (h e)) -> never_throws (try_catch p h).
Proof.
  intros Hh. induction p as [a | e | u k IH | X q k IH]; cbn.
  - exact I.
  - apply Hh.
  - exact IH.
  - intros x. apply IH.
Qed.

Lemma never_throws_finally (A : Type) (p : Prog A) (f : Prog unit) :
  never_throws p -> never_throws f -> never_throws (try_finally p f).
Proof.
  intros Hp Hf. induction p as [a | e | u k IH | X q k IH]; cbn in *.
  - apply never_throws_bind; [exact Hf | intros; exact I].
  - contradiction.
  - apply IH, Hp.
  - intros x. apply IH, Hp.
Qed.

Lemma run_never_throws (A : Type) (p : Prog A) :
  never_throws p -> forall env w e, snd (run env p w) <> Uncaught e.
Proof.
  induction p as [a | e0 | u k IH | X q k IH]; intros Hp env w e; cbn in *.
  - discriminate.
  - contradiction.
  - apply IH, Hp.
  - destruct (answer env q w) as [w' [x |]]; cbn.
    + apply IH, Hp.
    + discriminate.
Qed.

Lemma handleSendMessage_never_throws (r : AppState) :
  never_throws (handleSendMessage BACKEND_URL r).
Proof.
  unfold handleSendMessage. destruct (negb _); [exact I |].
  cbn. intros t0 ts0 o.
  apply never_throws_finally; [| exact I].
  apply never_throws_catch. intros e. cbn. intros t1 ts1. exact I.
Qed.

Lemma fetchEvents_never_throws : never_throws (fetchEvents BACKEND_URL).
Proof.
  unfold fetchEvents. apply never_throws_catch. intros e. exact I.
Qed.

Lemma handleAddEvent_never_throws (r : AppState) :
  never_throws (handleAddEvent BACKEND_URL r).
Proof.
  unfold handleAddEvent. apply never_throws_catch. intros e. exact I.
Qed.

Lemma requestLocation_never_throws : never_throws requestLocation.
Proof.
  unfold requestLocation. cbn. intros [|]; cbn; [| exact I].
  intros _. exact I.
Qed.

(** X7. No handler lets an exception escape: whatever the network, the
    geolocation and the response bodies are, [handleSendMessage],
    [handleKeyPress], [fetchEvents], [handleAddEvent] and
    [requestLocation] never end in an uncaught error. *)
Theorem handlers_never_throw (env : Env) (w : World) (e : JsError) :
  snd (invoke (handleSendMessage BACKEND_URL) env w) <> Uncaught e
  /\ (forall key shiftKey,
        match started (handleKeyPress BACKEND_URL key shiftKey (ui w)) with
        | Some call => snd (run env call w) <> Uncaught e
        | None => True
        end)
  /\ snd (run env (fetchEvents BACKEND_URL) w) <> Uncaught e
  /\ snd (invoke (handleAddEvent BACKEND_URL) env w) <> Uncaught e
  /\ snd (run env requestLocation w) <> Uncaught e.
Proof.
  unfold invoke. repeat split.
  - apply run_never_throws, handleSendMessage_never_throws.
  - intros key shiftKey. unfold handleKeyPress.
    destruct (submits key shiftKey); cbn; [| exact I].
    apply run_never_throws, handleSendMessage_never_throws.
  - apply run_never_throws, fetchEvents_never_throws.
  - apply run_never_throws, handleAddEvent_never_throws.
  - apply run_never_throws, requestLocation_never_throws.
Qed.

(** *** Frames *)

Lemma effects_within_bind (allowed : Effect -> Prop) (A B : Type)
      (p : Prog A) (f : A -> Prog B) :
  effects_within allowed p -> (forall a, effects_within allowed (f a)) ->
  effects_within allowed (bind_prog p f).
Proof.
  intros Hp Hf. induction p as [a | e | u k IH | X q k IH]; cbn in *.
  - apply Hf.
  - exact I.
  - destruct Hp as [Hu Hk]. split; [exact Hu | apply IH, Hk].
  - intros x. apply IH, Hp.
Qed.

Lemma effects_within_catch (allowed : Effect -> Prop) (A : Type)
      (p : Prog A) (h : JsError -> Prog A) :
  effects_within allowed p -> (forall e, effects_within allowed (h e)) ->
  effects_within allowed (try_catch p h).
Proof.
  intros Hp Hh. induction p as [a | e | u k IH | X q k IH]; cbn in *.
  - exact I.
  - apply Hh.
  - destruct Hp as [Hu Hk]. split; [exact Hu | apply IH, Hk].
  - intros x. apply IH, Hp.
Qed.

Lemma effects_within_finally (allowed : Effect -> Prop) (A : Type)
      (p : Prog A) (f : Prog unit) :
  effects_within allowed p -> effects_within allowed f ->
  effects_within allowed (try_finally p f).
Proof.
  intros Hp Hf. induction p as [a | e | u k IH | X q k IH]; cbn in *.
  - apply effects_within_bind; [exact Hf | intros; exact I].
  - apply effects_within_bind; [exact Hf | intros; exact I].
  - destruct Hp as [Hu Hk]. split; [exact Hu | apply IH, Hk].
  - intros x. apply IH, Hp.
Qed.

(** A projection of the state that no allowed effect changes is the
    same after any run of a program whose effects are all allowed. *)
Lemma run_preserves (T : Type) (proj : AppState -> T) (allowed : Effect -> Prop) :
  (forall u w, allowed u -> proj (ui (apply_effect u w)) = proj (ui w)) ->
  forall (A : Type) (p : Prog A),
    effects_within allowed p ->
    forall env w, proj (ui (fst (run env p w))) = proj (ui w).
Proof.
  intros Hframe A p. induction p as [a | e | u k IH | X q k IH]; intros Hp env w; cbn in *.
  - reflexivity.
  - reflexivity.
  - destruct Hp as [Hu Hk]. rewrite (IH Hk). apply Hframe, Hu.
  - pose proof (answer_ui env q w) as Hui.
    destruct (answer env q w) as [w' [x |]]; cbn in *.
    + rewrite (IH x (Hp x)). now rewrite Hui.
    + now rewrite Hui.
Qed.

Lemma handleSendMessage_effects (r : AppState) :
  effects_within chat_effect (handleSendMessage BACKEND_URL r).
Proof.
  unfold handleSendMessage. destruct (negb _); [exact I |].
  cbn. intros t0 ts0. split; [exact I |]. split; [exact I |]. split; [exact I |].
  intros o.
  apply effects_within_finally; [| cbn; auto].
  apply effects_within_catch.
  - destruct o as [resp | reason]; cbn; [| exact I].
    destruct (ok resp); cbn; [| exact I].
    unfold await_json. destruct (json_body resp) as [e | data]; cbn; [exact I |].
    intros t1. destruct data; cbn; try exact I; intros ts1; cbn; auto.
  - intros e. cbn. split; [exact I |]. intros t1 ts1. cbn. auto.
Qed.

Lemma fetchEvents_effects : effects_within events_effect (fetchEvents BACKEND_URL).
Proof.
  unfold fetchEvents. apply effects_within_catch.
  - cbn. intros [resp | reason]; cbn; [| exact I].
    unfold await_json. destruct (json_body resp); cbn; auto.
  - intros e. cbn. auto.
Qed.

Lemma handleAddEvent_effects (r : AppState) :
  effects_within events_effect (handleAddEvent BACKEND_URL r).
Proof.
  unfold handleAddEvent. apply effects_within_catch.
  - cbn. intros [resp | reason]; cbn; [| exact I].
    destruct (ok resp); cbn; [| exact I].
    split; [exact I |]. split; [exact I |]. apply fetchEvents_effects.
  - intros e. cbn. auto.
Qed.

(** X8. A chat turn touches the chat only: whichever render the handler
    comes from, whatever state it runs on and whatever the network does,
    [handleSendMessage] leaves the user location, the events, the
    preferences, the active tab, the dialog flag and the event form as
    they are. *)
Theorem handleSendMessage_frame (r : AppState) (env : Env) (w : World) :
  let w' := fst (run env (handleSendMessage BACKEND_URL r) w) in
  userLocation (ui w') = userLocation (ui w)
  /\ events (ui w') = events (ui w)
  /\ preferences (ui w') = preferences (ui w)
  /\ activeTab (ui w') = activeTab (ui w)
  /\ showAddEvent (ui w') = showAddEvent (ui w)
  /\ newEvent (ui w') = newEvent (ui w).
Proof.
  cbv zeta.
  pose proof (@run_preserves _
                (fun s => (userLocation s, events s, preferences s, activeTab s,
                           showAddEvent s, newEvent s))
                chat_effect) as Hrun.
  cbv beta in Hrun.
  assert (Hframe : forall u w0, chat_effect u ->
            (userLocation (ui (apply_effect u w0)), events (ui (apply_effect u w0)),
             preferences (ui (apply_effect u w0)), activeTab (ui (apply_effect u w0)),
             showAddEvent (ui (apply_effect u w0)), newEvent (ui (apply_effect u w0)))
            = (userLocation (ui w0), events (ui w0), preferences (ui w0),
               activeTab (ui w0), showAddEvent (ui w0), newEvent (ui w0))).
  { intros u w0 Hu. destruct u; cbn in *; try contradiction; reflexivity. }
  specialize (Hrun Hframe _ _ (handleSendMessage_effects r) env w).
  injection Hrun as H1 H2 H3 H4 H5 H6. repeat split; assumption.
Qed.

(** X9. Submitting the event form touches the admin and events tabs
    only: [handleAddEvent], from any render, on any state, whatever the
    network does, leaves the messages, the input, the loading flag, the
    recommended events, the user location, the preferences and the active
    tab as they are. *)
Theorem handleAddEvent_frame (r : AppState) (env : Env) (w : World) :
  let w' := fst (run env (handleAddEvent BACKEND_URL r) w) in
  messages (ui w') = messages (ui w)
  /\ inputMessage (ui w') = inputMessage (ui w)
  /\ isLoading (ui w') = isLoading (ui w)
  /\ recommendedEvents (ui w') = recommendedEvents (ui w)
  /\ userLocation (ui w') = userLocation (ui w)
  /\ preferences (ui w') = preferences (ui w)
  /\ activeTab (ui w') = activeTab (ui w).
Proof.
  cbv zeta.
  pose proof (@run_preserves _
                (fun s => (messages s, inputMessage s, isLoading s, recommendedEvents s,
                           userLocation s, preferences s, activeTab s))
                events_effect) as Hrun.
  cbv beta in Hrun.
  assert (Hframe : forall u w0, events_effect u ->
            (messages (ui (apply_effect u w0)), inputMessage (ui (apply_effect u w0)),
             isLoading (ui (apply_effect u w0)), recommendedEvents (ui (apply_effect u w0)),
             userLocation (ui (apply_effect u w0)), preferences (ui (apply_effect u w0)),
             activeTab (ui (apply_effect u w0)))
            = (messages (ui w0), inputMessage (ui w0), isLoading (ui w0),
               recommendedEvents (ui w0), userLocation (ui w0), preferences (ui w0),
               activeTab (ui w0))).
  { intros u w0 Hu. destruct u; cbn in *; try contradiction; reflexivity. }
  specialize (Hrun Hframe _ _ (handleAddEvent_effects r) env w).
  injection Hrun as H1 H2 H3 H4 H5 H6 H7. repeat split; assumption.
Qed.

(** *** Events *)

(** X10. [fetchEvents] does not look at the status: whenever the
    response body parses, the events become that body, even under a
    status that is not ok; when the request is rejected, stays pending, or
    the body does not parse, the events stay as they are.  Nothing else
    in the state changes, and one GET request goes out. *)
Theorem fetchEvents_result (env : Env) (w : World) :
  let w' := fst (run env (fetchEvents BACKEND_URL) w) in
  let loaded :=
    match network env (List.length (requests w)) with
    | Some (Resolved resp) =>
        match json_body resp with
        | inr data => data
        | inl _ => events (ui w)
        end
    | _ => events (ui w)
    end in
  ui w' = mkAppState (messages (ui w)) (inputMessage (ui w)) (userLocation (ui w))
                     loaded (recommendedEvents (ui w)) (isLoading (ui w))
                     (activeTab (ui w)) (preferences (ui w)) (showAddEvent (ui w))
                     (newEvent (ui w))
  /\ requests w' = requests w ++ [mkRequest (BACKEND_URL ++ js "/api/events") GET [] None].
Proof.
  unfold fetchEvents. cbn.
  destruct w as [[msgs input loc evs recs loading tab prefs dialog form] reqs cons reads pos].
  cbn.
  destruct (network env (List.length reqs)) as [[resp | reason] |]; cbn; auto.
  unfold await_json. destruct (json_body resp) as [e | data]; cbn; auto.
Qed.

(** X11. When the POST of [handleAddEvent] is answered with an ok
    status, the dialog is closed, the form is reset to its initial
    values, and the events are fetched again: a GET request follows the
    POST, and the events become its parsed body if there is one. *)
Theorem handleAddEvent_success (env : Env) (w : World) (resp : Response) :
  network env (List.length (requests w)) = Some (Resolved resp) ->
  ok resp = true ->
  let w' := fst (invoke (handleAddEvent BACKEND_URL) env w) in
  let reloaded :=
    match network env (S (List.length (requests w))) with
    | Some (Resolved resp') =>
        match json_body resp' with
        | inr data => data
        | inl _ => events (ui w)
        end
    | _ => events (ui w)
    end in
  showAddEvent (ui w') = false
  /\ newEvent (ui w') = empty_form
  /\ events (ui w') = reloaded
  /\ requests w'
     = requests w ++ [ add_event_request BACKEND_URL (ui w);
                       mkRequest (BACKEND_URL ++ js "/api/events") GET [] None ].
Proof.
  intros Hnet Hok. unfold invoke, handleAddEvent. cbn. rewrite Hnet. cbn.
  rewrite Hok. cbn. rewrite length_app. cbn. rewrite Nat.add_1_r.
  destruct (network env (S (List.length (requests w)))) as [[resp' | reason] |]; cbn;
    rewrite <- ?app_assoc; auto.
  unfold await_json. destruct (json_body resp') as [e | data]; cbn;
    rewrite <- ?app_assoc; auto.
Qed.

(** *** Location *)

(** X12. [requestLocation] returns at once; when the browser then
    calls the success callback the user location becomes the reported
    coordinates, and while the position request is unanswered nothing in
    the state changes.  In every case the call and its callback touch no
    state variable but the user location and issue no network request. *)
Theorem requestLocation_result (env : Env) (w : World) :
  let w' := locate env w in
  (forall coords,
      geolocation env = true ->
      position env (position_requests w) = Some (PositionSuccess coords) ->
      userLocation (ui w') = Some coords)
  /\ (geolocation env = true ->
      position env (position_requests w) = None ->
      ui w' = ui w)
  /\ snd (run env requestLocation w) = Returned tt
  /\ (exists loc,
        ui w' = mkAppState (messages (ui w)) (inputMessage (ui w)) loc
                           (events (ui w)) (recommendedEvents (ui w)) (isLoading (ui w))
                           (activeTab (ui w)) (preferences (ui w)) (showAddEvent (ui w))
                           (newEvent (ui w)))
  /\ requests w' = requests w.
Proof.
  unfold locate, requestLocation. cbn -[Nat.ltb].
  destruct w as [[msgs input loc evs recs loading tab prefs dialog form] reqs cons reads pos].
  cbn -[Nat.ltb].
  destruct (geolocation env); cbn -[Nat.ltb].
  - rewrite ltb_succ.
    destruct (position env pos) as [[[lat long] | error] |]; cbn.
    + split; [intros coords _ Heq; injection Heq as <-; reflexivity |].
      split; [discriminate |]. split; [reflexivity |].
      split; [eexists; reflexivity | reflexivity].
    + split; [discriminate |].
      split; [discriminate |]. split; [reflexivity |].
      split; [eexists; reflexivity | reflexivity].
    + split; [discriminate |].
      split; [reflexivity |]. split; [reflexivity |].
      split; [eexists; reflexivity | reflexivity].
  - rewrite Nat.ltb_irrefl. cbn.
    split; [discriminate |].
    split; [discriminate |]. split; [reflexivity |].
    split; [eexists; reflexivity | reflexivity].
Qed.

(** X13. Mounting shows the greeting and nothing else in the chat,
    whatever the geolocation and the network do: the messages are exactly
    the one bot message with id 1, the only request issued is the GET of
    the events, and the input, the preferences and the form are
    untouched. *)
Theorem mount_result (env : Env) (w : World) :
  let w' := mount BACKEND_URL env w in
  messages (ui w')
  = [mkChatMessage 1 bot (VStr greeting) (localeTime env (clock_reads w))]
  /\ requests w' = requests w ++ [mkRequest (BACKEND_URL ++ js "/api/events") GET [] None]
  /\ inputMessage (ui w') = inputMessage (ui w)
  /\ preferences (ui w') = preferences (ui w)
  /\ newEvent (ui w') = newEvent (ui w)
  /\ (geolocation env = false -> userLocation (ui w') = Some default_location).
Proof.
  unfold mount. unfold welcome, fetchEvents, locate, requestLocation. cbn -[Nat.ltb].
  destruct (geolocation env); cbn -[Nat.ltb]; rewrite ?ltb_succ, ?Nat.ltb_irrefl; cbn.
  - destruct (position env (position_requests w)) as [[coords | error] |]; cbn;
      (destruct (network env (List.length (requests w))) as [[resp | reason] |]; cbn;
       [unfold await_json; destruct (json_body resp); cbn | | ]);
      repeat split; discriminate.
  - destruct (network env (List.length (requests w))) as [[resp | reason] |]; cbn;
      [unfold await_json; destruct (json_body resp); cbn | | ];
      repeat split.
Qed.

(** *** Preferences *)

Lemma eqb_eq (a b : jsstring) : JsString.eqb a b = true <-> a = b.
Proof.
  unfold JsString.eqb. destruct (JsString.eq_dec a b); split; congruence.
Qed.

Lemma filter_absent (c : jsstring) (l : list jsstring) :
  ~ In c l -> filter (fun p => negb (JsString.eqb p c)) l = l.
Proof.
  induction l as [| x l IH]; intros Hc; cbn; [reflexivity |].
  destruct (JsString.eqb x c) eqn:Hx; cbn.
  - apply eqb_eq in Hx. exfalso. apply Hc. left. exact Hx.
  - rewrite IH; [reflexivity |]. intros Hin. apply Hc. right. exact Hin.
Qed.

(** X14. [removePreference] removes the category and nothing else: the
    category is no longer in the list, every other category is in the
    list exactly if it was, and removing a category that is not in the
    list leaves the list as it is. *)
Theorem removePreference_removes (c : jsstring) (env : Env) (w : World) :
  let prefs' := preferences (ui (fst (invoke (removePreference c) env w))) in
  ~ In c prefs'
  /\ (forall p, p <> c -> (In p prefs' <-> In p (preferences (ui w))))
  /\ (~ In c (preferences (ui w)) -> prefs' = preferences (ui w)).
Proof.
  unfold invoke, removePreference. cbn. split; [| split].
  - rewrite filter_In. intros [_ Hneq].
    assert (Heq : JsString.eqb c c = true) by (apply eqb_eq; reflexivity).
    rewrite Heq in Hneq. discriminate.
  - intros p Hp. rewrite filter_In. split; [intros [Hin _]; exact Hin |].
    intros Hin. split; [exact Hin |].
    destruct (JsString.eqb p c) eqn:Heq; [| reflexivity].
    apply eqb_eq in Heq. contradiction.
  - apply filter_absent.
Qed.

(** X15. Adding a category that is not in the list and then removing it
    gives back the list as it was. *)
Theorem add_then_remove (c : jsstring) (env : Env) (w : World) :
  ~ In c (preferences (ui w)) ->
  preferences
    (ui (fst (invoke (removePreference c) env (fst (invoke (addPreference c) env w)))))
  = preferences (ui w).
Proof.
  intros Hc. unfold invoke, addPreference, removePreference.
  destruct (includes (preferences (ui w)) c) eqn:Hinc.
  - apply includes_In in Hinc. contradiction.
  - cbn. rewrite filter_app. cbn.
    assert (Heq : JsString.eqb c c = true) by (apply eqb_eq; reflexivity).
    rewrite Heq. cbn. rewrite app_nil_r. apply filter_absent, Hc.
Qed.

(** X16. Picking an item the Select offers always adds it, at the end
    of the list, and the Select of the next render no longer offers it:
    through the Select the guard of [addPreference] never fires. *)
Theorem offered_pick (c : jsstring) (env : Env) (w : World) :
  In c (offered (ui w)) ->
  let w' := fst (invoke (addPreference c) env w) in
  preferences (ui w') = preferences (ui w) ++ [c]
  /\ ~ In c (offered (ui w')).
Proof.
  intros Hc. pose proof Hc as Hc'. unfold offered in Hc'.
  apply filter_In in Hc'. destruct Hc' as [Hcat Hnot].
  unfold invoke, addPreference. rewrite Hnot.
  assert (Hprefs : preferences
                     (ui (fst (run env (perform (SetPreferences (preferences (ui w) ++ [c]))) w)))
                   = preferences (ui w) ++ [c]) by reflexivity.
  cbv zeta. split; [exact Hprefs |].
  unfold offered. rewrite filter_In, Hprefs. intros [_ Hnot'].
  apply negb_true_iff in Hnot'.
  assert (Hin : includes (preferences (ui w) ++ [c]) c = true).
  { apply includes_In. rewrite in_app_iff. right. left. reflexivity. }
  congruence.
Qed.

Lemma offered_step (a : PreferenceAction) (env : Env) (w : World) :
  action_offered (ui w) a = true ->
  incl (preferences (ui w)) categories ->
  incl (preferences (ui (fst (invoke (preference_handler a) env w)))) categories.
Proof.
  intros Hok Hincl.
  destruct a as [c | c]; unfold invoke, preference_handler, action_offered in *.
  - apply includes_In in Hok. unfold offered in Hok. apply filter_In in Hok.
    destruct Hok as [Hcat Hnot]. unfold addPreference. rewrite Hnot.
    change (incl (preferences (ui w) ++ [c]) categories).
    intros p Hp. apply in_app_iff in Hp. destruct Hp as [Hp | [<- | []]]; auto.
  - change (incl (filter (fun p => negb (JsString.eqb p c)) (preferences (ui w)))
                 categories).
    intros p Hp. apply filter_In in Hp. apply Hincl, Hp.
Qed.

(** X17. Through the preference card the preferences stay among the
    ten categories: from a list of distinct categories, after any
    sequence of picks from the Select and clicks on badges, the list
    still holds distinct categories only, and so never more than ten. *)
Theorem preferences_within_categories (env : Env) (acts : list PreferenceAction) :
  forall w,
    actions_offered env acts w = true ->
    incl (preferences (ui w)) categories ->
    NoDup (preferences (ui w)) ->
    let prefs' := preferences (ui (run_actions env acts w)) in
    incl prefs' categories /\ NoDup prefs' /\ (List.length prefs' <= 10)%nat.
Proof.
  induction acts as [| a rest IH]; intros w Hok Hincl Hnd; cbn in *.
  - split; [exact Hincl |]. split; [exact Hnd |].
    apply (NoDup_incl_length Hnd Hincl).
  - apply andb_prop in Hok. destruct Hok as [Ha Hrest].
    apply IH; [exact Hrest | apply offered_step; assumption |
               apply preference_step_distinct; exact Hnd].
Qed.

(** *** The event form *)

(** X18. The body of the POST of [handleAddEvent] has the twelve keys
    of the form, in the order of the form, each once: the ten text fields
    go out as the strings typed, and latitude and longitude keep their
    places and carry the serialised [parseFloat] results. *)
Theorem add_event_body (r : AppState) :
  let f := newEvent r in
  body (add_event_request BACKEND_URL r)
  = Some (JObj
            [ (js "title", JStr (title f));
              (js "description", JStr (description f));
              (js "category", JStr (category f));
              (js "date", JStr (date f));
              (js "time", JStr (time f));
              (js "location", JStr (location f));
              (js "address", JStr (address f));
              (js "latitude", JSON.of_number (JsNumber.parseFloat (form_latitude f)));
              (js "longitude", JSON.of_number (JsNumber.parseFloat (form_longitude f)));
              (js "organizer", JStr (organizer f));
              (js "price", JStr (price f));
              (js "image_url", JStr (image_url f)) ]).
Proof. reflexivity. Qed.

Lemma parseFloat_blank (s : jsstring) :
  forallb JsString.is_space s = true -> JsNumber.parseFloat s = JsNumber.NaN.
Proof.
  intros Hblank. unfold JsNumber.parseFloat.
  rewrite (trimStart_blank s Hblank). reflexivity.
Qed.

(** X19. A coordinate left empty, or filled with white space only, goes
    out as [null]: the body's field is [null] whenever the form string
    has no code unit other than white space. *)
Theorem blank_coordinates_null (r : AppState) :
  exists b,
    body (add_event_request BACKEND_URL r) = Some b
    /\ (forallb JsString.is_space (form_latitude (newEvent r)) = true ->
        JSON.field b (js "latitude") = Some JNull)
    /\ (forallb JsString.is_space (form_longitude (newEvent r)) = true ->
        JSON.field b (js "longitude") = Some JNull).
Proof.
  eexists. split; [reflexivity |].
  split; intros Hblank; cbn; rewrite (parseFloat_blank _ Hblank); reflexivity.
Qed.

(** *** Serialisation *)

Lemma of_number_finite (x : number) : finite_json (JSON.of_number x) = true.
Proof.
  unfold JSON.of_number. destruct (JsNumber.isFinite x) eqn:Hfin; [| reflexivity].
  change (JsNumber.isFinite (if PrimFloat.is_zero x then zero else x) = true).
  destruct (PrimFloat.is_zero x); [reflexivity | exact Hfin].
Qed.

Lemma stringify_finite :
  forall (v : value) (j : json), JSON.stringify v = Some j -> finite_json j = true.
Proof.
  fix IH 1. intros v j Hj. destruct v as [| | b | x | s | xs | props]; cbn in Hj.
  - discriminate.
  - injection Hj as <-. reflexivity.
  - injection Hj as <-. reflexivity.
  - injection Hj as <-. apply of_number_finite.
  - injection Hj as <-. reflexivity.
  - injection Hj as <-. cbn.
    induction xs as [| x xs IHxs]; cbn; [reflexivity |].
    rewrite IHxs, andb_true_r.
    destruct (JSON.stringify x) as [jx |] eqn:Hx; [exact (IH x jx Hx) | reflexivity].
  - injection Hj as <-. cbn.
    induction props as [| [k x] props IHprops]; cbn; [reflexivity |].
    destruct (JSON.stringify x) as [jx |] eqn:Hx; cbn.
    + rewrite IHprops, andb_true_r. exact (IH x jx Hx).
    + exact IHprops.
Qed.

(** X20. No request the component sends carries NaN or an infinity:
    the chat request and the add-event request always have a body, and
    every number in it is finite (a coordinate that is not goes out as
    [null]). *)
Theorem request_bodies_finite (r : AppState) :
  exists chat event,
    body (chat_request BACKEND_URL r) = Some chat
    /\ finite_json chat = true
    /\ body (add_event_request BACKEND_URL r) = Some event
    /\ finite_json event = true.
Proof.
  unfold chat_request, add_event_request. cbn [body].
  destruct (JSON.stringify (chat_payload r)) as [chat |] eqn:Hchat;
    [| discriminate Hchat].
  destruct (JSON.stringify (VObj (eventData (newEvent r)))) as [event |] eqn:Hevent;
    [| discriminate Hevent].
  exists chat, event.
  split; [reflexivity |]. split; [exact (stringify_finite _ Hchat) |].
  split; [reflexivity | exact (stringify_finite _ Hevent)].
Qed.

End AppMore.

(** ** Sample runs *)

Example parseFloat_decimal : JsNumber.parseFloat (js "40.7589") = 40.7589%float.
Proof. vm_compute. reflexivity. Qed.

Example parseFloat_prefix : JsNumber.parseFloat (js "  -73.9851 W") = (-73.9851)%float.
Proof. vm_compute. reflexivity. Qed.

Example parseFloat_exponent : JsNumber.parseFloat (js ".5e-1x") = 0.05%float.
Proof. vm_compute. reflexivity. Qed.

Example parseFloat_empty : JsNumber.parseFloat (js "") = nan.
Proof. vm_compute. reflexivity. Qed.

Example parseFloat_word : JsNumber.parseFloat (js "north") = nan.
Proof. vm_compute. reflexivity. Qed.

Example parseFloat_overflow : JsNumber.parseFloat (js "2e308") = infinity.
Proof. vm_compute. reflexivity. Qed.

Example trim_inner : JsString.trim (9 :: js " a b " ++ [160; 10])%N = js "a b".
Proof. reflexivity. Qed.

(** Mounting where the permission prompt stays open: the welcome message
    is shown, the events are loaded, the location is still null. *)
Example mounted_prompt_open :
  let w := mounted (scripted true None [no_events]) in
  userLocation (ui w) = None
  /\ messages (ui w) = [mkChatMessage 1 bot (VStr greeting) (js "10:00:00 AM")]
  /\ events (ui w) = VArr []
  /\ requests w = [mkRequest (js "http://localhost:8001/api/events") GET [] None].
Proof. repeat split. Qed.

(** C9 at a concrete input: a tab, a space and a no-break space. *)
Lemma handleSendMessage_blank_noop_witness :
  let env := scripted false None [no_events; reply_with_gig] in
  let w := typing env [9; 32; 160]%N (mounted env) in
  JsString.trim (inputMessage (ui w)) = []
  /\ invoke (handleSendMessage backend) env w = (w, Returned tt).
Proof.
  intros env w.
  split; [reflexivity | apply (handleSendMessage_blank_noop backend env w); reflexivity].
Defined.

(** C1 at a concrete input: the network goes down after the page loaded. *)
Lemma handleSendMessage_failure_witness :
  let env := scripted false None [no_events; Rejected failed_to_fetch] in
  let w := typing env (js "music tonight") (mounted env) in
  let w' := fst (invoke (handleSendMessage backend) env w) in
  fetch_failed (Rejected failed_to_fetch)
  /\ messages (ui w')
     = [ mkChatMessage 1 bot (VStr greeting) (js "10:00:00 AM");
         mkChatMessage 1700000000001 user (VStr (js "music tonight")) (js "10:00:00 AM");
         mkChatMessage
           1700000000004 bot
           (VStr (js "I'm sorry, I'm having trouble connecting right now. Please try again in a moment."))
           (js "10:00:00 AM") ]
  /\ List.length (requests w') = 2%nat.
Proof.
  intros env w w'.
  destruct (handleSendMessage_failure backend env w (o := Rejected failed_to_fetch))
    as [Hui [Hreq _]];
    [vm_compute; discriminate | reflexivity | exact I |].
  split; [exact I |].
  split.
  - change (messages (ui w')) with
      (messages (ui (fst (invoke (handleSendMessage backend) env w)))).
    rewrite Hui. reflexivity.
  - unfold w'. rewrite Hreq. reflexivity.
Defined.

(** C2 at a concrete input: a server error (status 500). *)
Lemma handleSendMessage_one_user_one_bot_witness :
  let o := Resolved (mkResponse 500 (inr VNull)) in
  let env := scripted false None [no_events; o] in
  let w := typing env (js "food") (mounted env) in
  exists u b,
    messages (ui (fst (invoke (handleSendMessage backend) env w)))
    = messages (ui w) ++ [u; b]
    /\ type u = user /\ content u = VStr (inputMessage (ui w))
    /\ type b = bot.
Proof.
  intros o env w.
  apply (handleSendMessage_one_user_one_bot backend env w (o := o));
    [vm_compute; discriminate | reflexivity].
Defined.

(** C4 at a concrete input: Music, Technology, Music again, Music removed. *)
Lemma preferences_distinct_witness :
  let env := scripted false None [no_events] in
  let acts := [ AddPreference (js "Music"); AddPreference (js "Technology");
                AddPreference (js "Music"); RemovePreference (js "Music") ] in
  preferences (ui (mounted env)) = []
  /\ NoDup (preferences (ui (run_actions env acts (mounted env))))
  /\ preferences (ui (run_actions env acts (mounted env))) = [js "Technology"]
  /\ (let w := run_actions env [AddPreference (js "Music")] (mounted env) in
      In (js "Music") (preferences (ui w))
      /\ invoke (addPreference (js "Music")) env w = (w, Returned tt)).
Proof.
  intros env acts.
  destruct (preferences_distinct env) as [Hdistinct Hpresent].
  split; [reflexivity |].
  split; [apply Hdistinct; reflexivity |].
  split; [reflexivity |].
  split; [left; reflexivity | apply Hpresent; left; reflexivity].
Defined.

(** C7 at a concrete input: the network is down from the start; the
    form is filled in and submitted. *)
Lemma events_failures_silent_witness :
  let env := scripted false None [Rejected failed_to_fetch; Rejected failed_to_fetch] in
  let w := filling env (js "40.7589") (js "-73.9851") (mounted env) in
  events (ui (fst (run env (fetchEvents backend) fresh))) = events (ui fresh)
  /\ newEvent (ui (fst (invoke (handleAddEvent backend) env w))) = newEvent (ui w)
  /\ showAddEvent (ui (fst (invoke (handleAddEvent backend) env w))) = true.
Proof.
  intros env w.
  split.
  - apply (events_failures_silent backend env fresh) with (reason := failed_to_fetch).
    reflexivity.
  - destruct (events_failures_silent backend env w) as [_ Hadd].
    destruct (Hadd (Rejected failed_to_fetch)) as [Hform [Hdialog _]];
      [reflexivity | exact I |].
    split; [exact Hform | rewrite Hdialog; reflexivity].
Defined.

(** C10 fails on the code: with geolocation available and the
    permission prompt unanswered, the call has returned, and the user
    location is still null. *)
Lemma requestLocation_unanswered_counterexample :
  let env := scripted true None [] in
  snd (run env requestLocation fresh) = Returned tt
  /\ userLocation (ui (fst (run env requestLocation fresh))) = None
  /\ userLocation (ui (locate env fresh)) = None.
Proof.
  intros env. split; [reflexivity |]. split; reflexivity.
Qed.

(** C10 as amended, at concrete inputs: no geolocation, and permission
    denied. *)
Lemma requestLocation_default_witness :
  let none := scripted false None [] in
  let denied := scripted true permission_denied [] in
  geolocation none = false
  /\ userLocation (ui (locate none fresh))
     = Some (mkLocation 40.7589%float (-73.9851)%float)
  /\ userLocation (ui (locate denied fresh))
     = Some (mkLocation 40.7589%float (-73.9851)%float)
  /\ userLocation (ui (locate denied fresh)) <> None
  /\ userLocation (ui (fst (run denied requestLocation fresh))) = None.
Proof.
  intros none denied.
  destruct (requestLocation_default none fresh) as [Hnone _].
  destruct (requestLocation_default denied fresh) as [Hdefault [_ [Hset [_ Hcall]]]].
  split; [reflexivity |].
  split; [apply Hnone; left; reflexivity |].
  split; [apply Hdefault; right; exists (PositionError 1); reflexivity |].
  split.
  - apply Hset. right. exists (PositionFailure (PositionError 1)). reflexivity.
  - destruct Hcall as [Hreturned _]; [reflexivity |]. exact Hreturned.
Defined.

(** C6 fails on the code: while the permission prompt is open the user
    location is null, and a message sent then goes out without
    [latitude] and [longitude]. *)
Lemma chat_request_without_location_counterexample :
  let env := scripted true None [no_events; reply_with_gig] in
  let w := typing env (js "music tonight") (mounted env) in
  userLocation (ui w) = None
  /\ exists b,
      requests (fst (invoke (handleSendMessage backend) env w))
      = requests w
        ++ [mkRequest (js "http://localhost:8001/api/chat") POST json_headers (Some b)]
      /\ b = JObj [ (js "message", JStr (js "music tonight"));
                    (js "preferences", JArr []) ]
      /\ JSON.field b (js "latitude") = None
      /\ JSON.field b (js "longitude") = None.
Proof.
  intros env w. split; [reflexivity |].
  eexists. split; [reflexivity |].
  split; [reflexivity |]. split; reflexivity.
Qed.

(** C6 as amended, at a concrete input: the default location is set. *)
Lemma chat_request_body_witness :
  let env := scripted false None [no_events; reply_with_gig] in
  let w := typing env (js "music tonight") (mounted env) in
  exists b,
    requests (fst (invoke (handleSendMessage backend) env w))
    = requests w
      ++ [mkRequest (js "http://localhost:8001/api/chat") POST json_headers (Some b)]
    /\ JSON.field b (js "message") = Some (JStr (js "music tonight"))
    /\ JSON.field b (js "latitude") = Some (JNum 40.7589%float)
    /\ JSON.field b (js "longitude") = Some (JNum (-73.9851)%float).
Proof.
  intros env w.
  destruct (chat_request_body backend env w) as [b [Hreq [Hmsg [_ Hloc]]]];
    [vm_compute; discriminate |].
  exists b. split; [exact Hreq |]. split; [exact Hmsg | exact Hloc].
Defined.

(** C5 fails on the code: with latitude [north], which does not parse,
    the form is still submitted, and the body carries [null] as its
    latitude. *)
Lemma add_event_unvalidated_counterexample :
  let env := scripted false None [no_events; Resolved (mkResponse 422 (inr VNull))] in
  let w := filling env (js "north") (js "-73.9851") (mounted env) in
  JsNumber.isNaN (JsNumber.parseFloat (form_latitude (newEvent (ui w)))) = true
  /\ exists b,
      requests (fst (invoke (handleAddEvent backend) env w))
      = requests w
        ++ [mkRequest (js "http://localhost:8001/api/events") POST json_headers (Some b)]
      /\ JSON.field b (js "latitude") = Some JNull
      /\ JSON.field b (js "longitude") = Some (JNum (-73.9851)%float).
Proof.
  intros env w. split; [reflexivity |].
  eexists. split; [reflexivity |]. split; reflexivity.
Qed.

(** C8 fails on the code: a turn that recommends the gig, followed by a
    turn whose request is rejected, leaves the gig of the earlier turn in
    the recommended events. *)
Lemma stale_recommendation_counterexample :
  let env := scripted false None [no_events; reply_with_gig; Rejected failed_to_fetch] in
  let w1 := chat_turn env (js "music tonight") (mounted env) in
  let w2 := chat_turn env (js "food") w1 in
  network env 2 = Some (Rejected failed_to_fetch)
  /\ List.length (requests w2) = 3%nat
  /\ List.length (messages (ui w2)) = 5%nat
  /\ recommendedEvents (ui w1) = VArr [gig]
  /\ recommendedEvents (ui w2) = VArr [gig]
  /\ recommendedEvents (ui w2) <> VArr [].
Proof.
  intros env w1 w2.
  split; [reflexivity |]. split; [reflexivity |]. split; [reflexivity |].
  split; [reflexivity |]. split; [reflexivity | discriminate].
Qed.

(** C8 as amended, at concrete inputs: an accepted reply, then a failure. *)
Lemma recommended_events_after_turn_witness :
  let env := scripted false None [no_events; reply_with_gig; Rejected failed_to_fetch] in
  let w := typing env (js "music tonight") (mounted env) in
  let w1 := fst (invoke (handleSendMessage backend) env w) in
  let w' := typing env (js "food") w1 in
  recommendedEvents (ui w1) = VArr [gig]
  /\ recommendedEvents (ui (fst (invoke (handleSendMessage backend) env w')))
     = recommendedEvents (ui w').
Proof.
  intros env w w1 w'. split.
  - apply (recommended_events_after_turn backend env w (o := reply_with_gig));
      [vm_compute; discriminate | reflexivity].
  - apply (recommended_events_after_turn backend env w' (o := Rejected failed_to_fetch));
      [vm_compute; discriminate | reflexivity].
Defined.

(** ** Sample runs of the further properties *)

(** X1 at a concrete input: the reply recommends the gig. *)
Lemma handleSendMessage_accepted_witness :
  let env := scripted false None [no_events; reply_with_gig] in
  let w := typing env (js "music tonight") (mounted env) in
  let w' := fst (invoke (handleSendMessage backend) env w) in
  messages (ui w')
  = [ mkChatMessage 1 bot (VStr greeting) (js "10:00:00 AM");
      mkChatMessage 1700000000001 user (VStr (js "music tonight")) (js "10:00:00 AM");
      mkChatMessage 1700000000004 bot (VStr (js "Try the gig")) (js "10:00:00 AM") ]
  /\ recommendedEvents (ui w') = VArr [gig]
  /\ console w' = [].
Proof.
  intros env w w'. unfold w'.
  rewrite (handleSendMessage_accepted backend env w (o := reply_with_gig)
             (data := VObj [ (js "response", VStr (js "Try the gig"));
                             (js "recommended_events", VArr [gig]) ]));
    [| vm_compute; discriminate | reflexivity | reflexivity].
  repeat split.
Defined.

(** X2 at a concrete input: an ok response whose body is [null]. *)
Lemma handleSendMessage_not_accepted_witness :
  let o := Resolved (mkResponse 200 (inr VNull)) in
  let env := scripted false None [no_events; o] in
  let w := typing env (js "music tonight") (mounted env) in
  exists error,
    console (fst (invoke (handleSendMessage backend) env w))
    = [(js "Error sending message:", error)].
Proof.
  intros o env w.
  destruct (handleSendMessage_not_accepted backend env w (o := o))
    as [n [ts [error Hrun]]];
    [vm_compute; discriminate | reflexivity | reflexivity |].
  exists error. cbv zeta in Hrun. rewrite Hrun. reflexivity.
Defined.

(** X3 at a concrete input: the chat request is never answered. *)
Lemma handleSendMessage_pending_witness :
  let env := scripted false None [no_events] in
  let w := typing env (js "music tonight") (mounted env) in
  let w' := fst (invoke (handleSendMessage backend) env w) in
  network env (List.length (requests w)) = None
  /\ send_disabled (ui w') = true
  /\ snd (invoke (handleSendMessage backend) env w) = Pending.
Proof.
  intros env w w'.
  destruct (handleSendMessage_pending backend env w) as [_ [Hdisabled [_ Hpending]]];
    [vm_compute; discriminate | reflexivity |].
  split; [reflexivity |]. split; [exact Hdisabled | exact Hpending].
Defined.

(** X4 at a concrete input: three turns against a server that always
    recommends the gig. *)
Lemma chat_turns_count_witness :
  let env := answering reply_with_gig in
  let texts := [js "music tonight"; js "food"; js " art "] in
  let w' := chat_turns backend env texts (mounted env) in
  List.length (messages (ui w')) = 7%nat
  /\ List.length (requests w') = 4%nat
  /\ isLoading (ui w') = false.
Proof.
  intros env texts w'.
  destruct (chat_turns_count backend env (texts := texts)) with (w := mounted env)
    as [Hmessages [Hrequests Hlast]].
  - intros n. discriminate.
  - repeat constructor; vm_compute; discriminate.
  - split; [exact Hmessages |]. split; [exact Hrequests |].
    apply Hlast. discriminate.
Defined.

(** X5 at concrete inputs: two spaces, and a word between spaces. *)
Lemma handleSendMessage_sends_iff_witness :
  let env := scripted false None [no_events; reply_with_gig] in
  let blank := typing env (js "  ") (mounted env) in
  let word := typing env (js " hi ") (mounted env) in
  invoke (handleSendMessage backend) env blank = (blank, Returned tt)
  /\ requests (fst (invoke (handleSendMessage backend) env word))
     = requests word ++ [chat_request backend (ui word)].
Proof.
  intros env blank word. split.
  - apply (handleSendMessage_sends_iff backend env blank). reflexivity.
  - apply (handleSendMessage_sends_iff backend env word). reflexivity.
Defined.

(** X11 at a concrete input: the event is created and the gallery
    reloaded. *)
Lemma handleAddEvent_success_witness :
  let env := scripted false None [no_events; created; one_event] in
  let w := filling env (js "40.7589") (js "-73.9851") (mounted env) in
  let w' := fst (invoke (handleAddEvent backend) env w) in
  showAddEvent (ui w) = true
  /\ showAddEvent (ui w') = false
  /\ newEvent (ui w') = empty_form
  /\ events (ui w') = VArr [gig].
Proof.
  intros env w w'.
  destruct (handleAddEvent_success backend env w (resp := mkResponse 201
              (inr (VObj [ (js "id", VStr (js "e1")) ]))))
    as [Hdialog [Hform [Hevents _]]]; [reflexivity | reflexivity |].
  split; [reflexivity |]. split; [exact Hdialog |]. split; [exact Hform | exact Hevents].
Defined.

(** X12 at concrete inputs: a position is reported, and the prompt is
    left open. *)
Lemma requestLocation_result_witness :
  let located := scripted true (Some (PositionSuccess times_square)) [] in
  let prompting := scripted true None [] in
  userLocation (ui (locate located fresh)) = Some times_square
  /\ ui (locate prompting fresh) = ui fresh.
Proof.
  intros located prompting. split.
  - apply (requestLocation_result located fresh); reflexivity.
  - apply (requestLocation_result prompting fresh); reflexivity.
Defined.

(** X13 at a concrete input: no geolocation, events loaded. *)
Lemma mount_result_witness :
  let env := scripted false None [one_event] in
  geolocation env = false
  /\ userLocation (ui (mount backend env fresh)) = Some default_location
  /\ List.length (messages (ui (mount backend env fresh))) = 1%nat.
Proof.
  intros env.
  destruct (mount_result backend env fresh) as [Hmessages [_ [_ [_ [_ Hlocation]]]]].
  split; [reflexivity |]. split; [apply Hlocation; reflexivity |].
  cbv zeta in Hmessages. rewrite Hmessages. reflexivity.
Defined.

(** X14 at a concrete input: Music removed from Music, Technology. *)
Lemma removePreference_removes_witness :
  let env := scripted false None [no_events] in
  let w := run_actions env [AddPreference (js "Music"); AddPreference (js "Technology")]
                       (mounted env) in
  let prefs' := preferences (ui (fst (invoke (removePreference (js "Music")) env w))) in
  js "Technology" <> js "Music"
  /\ ~ In (js "Music") prefs'
  /\ In (js "Technology") prefs'.
Proof.
  intros env w prefs'.
  destruct (removePreference_removes (js "Music") env w) as [Hgone [Hothers _]].
  split; [discriminate |]. split; [exact Hgone |].
  apply (Hothers (js "Technology")); [discriminate | right; left; reflexivity].
Defined.

(** X15 at a concrete input: Music added to, then removed from,
    Technology. *)
Lemma add_then_remove_witness :
  let env := scripted false None [no_events] in
  let w := run_actions env [AddPreference (js "Technology")] (mounted env) in
  ~ In (js "Music") (preferences (ui w))
  /\ preferences
       (ui (fst (invoke (removePreference (js "Music")) env
                        (fst (invoke (addPreference (js "Music")) env w)))))
     = [js "Technology"].
Proof.
  intros env w.
  assert (Habsent : ~ In (js "Music") (preferences (ui w))).
  { intros [Heq | []]. discriminate Heq. }
  split; [exact Habsent |].
  rewrite (add_then_remove (js "Music") env w Habsent). reflexivity.
Defined.

(** X16 at a concrete input: Community picked from the Select. *)
Lemma offered_pick_witness :
  let env := scripted false None [no_events] in
  let w := run_actions env [AddPreference (js "Music")] (mounted env) in
  In (js "Community") (offered (ui w))
  /\ preferences (ui (fst (invoke (addPreference (js "Community")) env w)))
     = [js "Music"; js "Community"].
Proof.
  intros env w.
  assert (Hoffered : In (js "Community") (offered (ui w))).
  { vm_compute. do 7 right. left. reflexivity. }
  split; [exact Hoffered |].
  destruct (offered_pick (js "Community") env w Hoffered) as [Hprefs _].
  rewrite Hprefs. reflexivity.
Defined.

(** X17 at a concrete input: two picks, a badge click, another pick. *)
Lemma preferences_within_categories_witness :
  let env := scripted false None [no_events] in
  let acts := [ AddPreference (js "Music"); AddPreference (js "Education");
                RemovePreference (js "Music"); AddPreference (js "Community") ] in
  actions_offered env acts (mounted env) = true
  /\ NoDup (preferences (ui (run_actions env acts (mounted env))))
  /\ (List.length (preferences (ui (run_actions env acts (mounted env)))) <= 10)%nat.
Proof.
  intros env acts.
  destruct (preferences_within_categories env acts (mounted env))
    as [_ [Hdistinct Hlength]].
  - reflexivity.
  - intros c [].
  - constructor.
  - split; [reflexivity |]. split; [exact Hdistinct | exact Hlength].
Defined.

(** X19 at a concrete input: the latitude is one space, the longitude
    is empty. *)
Lemma blank_coordinates_null_witness :
  let env := scripted false None [no_events] in
  let w := filling env (js " ") (js "") (mounted env) in
  exists b,
    body (add_event_request backend (ui w)) = Some b
    /\ JSON.field b (js "latitude") = Some JNull
    /\ JSON.field b (js "longitude") = Some JNull.
Proof.
  intros env w.
  destruct (blank_coordinates_null backend (ui w)) as [b [Hbody [Hlat Hlong]]].
  exists b. split; [exact Hbody |].
  split; [apply Hlat; reflexivity | apply Hlong; reflexivity].
Defined.

(** X21 at a concrete input: the handler of the first render, which saw
    no preference, is called again after Music was added. *)
Lemma preference_step_distinct_stale_witness :
  let env := scripted false None [no_events] in
  let first := ui (mounted env) in
  let w := run_actions env [AddPreference (js "Music")] (mounted env) in
  NoDup (preferences first)
  /\ NoDup (preferences (ui w))
  /\ NoDup (preferences
              (ui (fst (run env (preference_handler (AddPreference (js "Music")) first) w)))).
Proof.
  intros env first w.
  assert (Hfirst : NoDup (preferences first)) by constructor.
  assert (Hw : NoDup (preferences (ui w))).
  { repeat constructor. intros []. }
  split; [exact Hfirst |]. split; [exact Hw |].
  apply (preference_step_distinct_stale (AddPreference (js "Music")) first env w Hfirst Hw).
Defined.

(** X22 at a concrete input: a clock that advances one millisecond per
    read. *)
Lemma turn_ids_increase_witness :
  let env := scripted false None [no_events; reply_with_gig] in
  let w := typing env (js "music tonight") (mounted env) in
  (forall m n, (m <= n)%nat -> (now env m <= now env n)%Z)
  /\ exists u b,
      messages (ui (fst (invoke (handleSendMessage backend) env w)))
      = messages (ui w) ++ [u; b]
      /\ (id u < id b)%Z.
Proof.
  intros env w.
  assert (Hclock : forall m n, (m <= n)%nat -> (now env m <= now env n)%Z).
  { intros m n Hmn. unfold env, scripted. cbv [now]. lia. }
  split; [exact Hclock |].
  apply (turn_ids_increase backend env w (o := reply_with_gig));
    [vm_compute; discriminate | reflexivity | exact Hclock].
Defined.

(** X23 at a concrete input: the reply is an object with neither key. *)
Lemma handleSendMessage_missing_keys_witness :
  let props := [ (js "status", VStr (js "ok")) ] in
  let resp := mkResponse 200 (inr (VObj props)) in
  let env := scripted false None [no_events; reply_with_gig; Resolved resp] in
  let w := typing env (js "food") (chat_turn env (js "music tonight") (mounted env)) in
  let w' := fst (invoke (handleSendMessage backend) env w) in
  recommendedEvents (ui w) = VArr [gig]
  /\ recommendedEvents (ui w') = VArr []
  /\ exists u b,
      messages (ui w') = messages (ui w) ++ [u; b] /\ type b = bot /\ content b = VUndefined.
Proof.
  intros props resp env w w'.
  destruct (handleSendMessage_missing_keys backend env w (resp := resp) (props := props))
    as [Hresponse Hrecommended];
    [vm_compute; discriminate | reflexivity | reflexivity | reflexivity |].
  split; [reflexivity |].
  split; [apply Hrecommended; reflexivity | apply Hresponse; reflexivity].
Defined.
